(** * HandHockey: the action resolver, the match state and the persistence
    layer, embedded from [game_logic.py] and [database.py].

    Python values are modelled as follows.
    - [int] is [Z] (unbounded).
    - [str] is [string]; role and scenario names are ASCII text, so
      [str.upper] and [str.lower] act on the letters a-z and A-Z and leave
      every other character alone.
    - [float] is the binary64 type [float] of the Standard Library, with the
      same correctly rounded literals, addition and comparisons.
    - a [dict] literal that is only read is an association list in source
      order; a [dict] that is built or updated by key is a [gmap].
    - a raised exception is the [Raise] branch of [res]. *)

From Stdlib Require Import ZArith String Ascii List Bool Lia Floats DecimalString.
From stdpp Require Import base option gmap strings list.

Set Warnings "-inexact-float,-level-tolerance,-register-all".

Open Scope string_scope.
Open Scope Z_scope.

(** ** Python string primitives *)

Module PyStr.

(** [c.upper()] for one ASCII character. *)
Definition upper_ascii (c : ascii) : ascii :=
  let n := N_of_ascii c in
  if ((97 <=? n) && (n <=? 122))%N then ascii_of_N (n - 32) else c.

(** [c.lower()] for one ASCII character. *)
Definition lower_ascii (c : ascii) : ascii :=
  let n := N_of_ascii c in
  if ((65 <=? n) && (n <=? 90))%N then ascii_of_N (n + 32) else c.

(** [s.upper()] *)
Fixpoint upper (s : string) : string :=
  match s with
  | EmptyString => EmptyString
  | String c r => String (upper_ascii c) (upper r)
  end.

(** [s.lower()] *)
Fixpoint lower (s : string) : string :=
  match s with
  | EmptyString => EmptyString
  | String c r => String (lower_ascii c) (lower r)
  end.

(** [str(n)] for an [int], as an f-string renders it. *)
Definition str_of_int (n : Z) : string := NilZero.string_of_int (Z.to_int n).

(** [sep.join(parts)] *)
Fixpoint join (sep : string) (parts : list string) : string :=
  match parts with
  | [] => ""
  | [p] => p
  | p :: rest => p +:+ sep +:+ join sep rest
  end.

(** [a == b] on strings. *)
Definition eqs (a b : string) : bool := bool_decide (a = b).

End PyStr.

(** ** Read-only dictionaries *)

Module PyDict.

Section Get.
Context {K V : Type} `{EqDecision K}.

(** [d.get(key)] on a dict literal: [None] when the key is absent. *)
Fixpoint get (d : list (K * V)) (key : K) : option V :=
  match d with
  | [] => None
  | (k, v) :: rest => if decide (k = key) then Some v else get rest key
  end.

(** [d.get(key, dflt)] *)
Definition get_default (d : list (K * V)) (key : K) (dflt : V) : V :=
  match get d key with
  | Some v => v
  | None => dflt
  end.

End Get.

End PyDict.

(** ** game_logic.py: class GameLogic *)

Module GameLogic.

Import PyStr.

(** The value [evaluate_action] returns: a dict with the keys [result],
    [description] and [success], and [next_action] on every branch but the
    two rejections. *)
Record ActionResult := mkActionResult {
  result : string;
  description : string;
  success : bool;
  next_action : option string
}.

(** The dict literal [ranges] of [get_action_range]. *)
Definition ranges : list (string * string * string * (Z * Z)) :=
  [ (("ST", "DEF", "dribbling"), (1, 3));
    (("ST", "MF", "dribbling"), (1, 3));
    (("MF", "DEF", "passing"), (1, 3));
    (("ST", "GK", "shooting"), (1, 6));
    (("ST", "MF", "quick_pass"), (1, 2));
    (("ST", "DEF", "corner_kick"), (4, 6));
    (("GK", "ANY", "interception"), (1, 3));
    (("MF", "GK", "long_shot"), (2, 5));
    (("DEF", "ST", "tackle"), (1, 4));
    (("ANY", "ANY", "default"), (1, 3)) ].

(** [ranges[("ANY", "ANY", "default")]]; the key is in the literal, so the
    subscript cannot raise. *)
Definition ranges_default : Z * Z :=
  PyDict.get_default ranges ("ANY", "ANY", "default") (0, 0).

Definition get_action_range (attacker_role defender_role scenario : string)
  : Z * Z :=
  let key := (upper attacker_role, upper defender_role, lower scenario) in
  PyDict.get_default ranges key ranges_default.

(** [lo <= x <= hi] *)
Definition in_range (r : Z * Z) (x : Z) : bool :=
  ((fst r <=? x) && (x <=? snd r))%Z.

Definition range_text (r : Z * Z) : string :=
  str_of_int (fst r) +:+ "-" +:+ str_of_int (snd r).

Definition evaluate_action (attacker_action defender_action : Z)
    (attacker_role defender_role scenario : string) : ActionResult :=
  let valid_range := get_action_range attacker_role defender_role scenario in
  if negb (in_range valid_range attacker_action) then
    mkActionResult "invalid_action"
      ("Invalid action for " +:+ attacker_role +:+ ". Must be between "
         +:+ range_text valid_range)
      false None
  else if negb (in_range valid_range defender_action) then
    mkActionResult "invalid_action"
      ("Invalid action for " +:+ defender_role +:+ ". Must be between "
         +:+ range_text valid_range)
      false None
  else if (attacker_action =? defender_action)%Z then
    if eqs (upper defender_role) "GK" then
      mkActionResult "save" "Goalkeeper makes a crucial save!"
        false (Some "corner_kick")
    else if eqs (upper attacker_role) "ST" && eqs (upper defender_role) "DEF" then
      mkActionResult "foul" "Defensive foul committed!"
        true (Some "free_kick")
    else
      mkActionResult "interception" "Ball intercepted! Possession changes."
        false (Some "possession_change")
  else if (attacker_action >? defender_action)%Z then
    if eqs scenario "shooting" && eqs (upper defender_role) "GK" then
      mkActionResult "goal" "GOAL! What a fantastic strike!"
        true (Some "kickoff")
    else
      mkActionResult "success" "Action successful! Attacker advances."
        true (Some "continue_attack")
  else
    if eqs (upper defender_role) "GK" then
      mkActionResult "save" "Great save by the goalkeeper!"
        false (Some "goalkeeper_possession")
    else
      mkActionResult "blocked" "Action blocked by defender!"
        false (Some "possession_change").

(** [evaluate_action] with the keyword default [scenario="default"]. *)
Definition evaluate_action_default (attacker_action defender_action : Z)
    (attacker_role defender_role : string) : ActionResult :=
  evaluate_action attacker_action defender_action
    attacker_role defender_role "default".

(** The builtins [min(a, b)] and [max(a, b)] on floats: the first argument
    is kept unless the second is strictly smaller (resp. larger). *)
Definition py_min (a b : float) : float := if (b <? a)%float then b else a.
Definition py_max (a b : float) : float := if (a <? b)%float then b else a.

(** The dict literals of [calculate_success_probability]. *)
Definition role_advantages : list (string * string * float) :=
  [ (("ST", "DEF"), 0.6%float);
    (("ST", "MF"), 0.7%float);
    (("ST", "GK"), 0.4%float);
    (("MF", "DEF"), 0.5%float);
    (("MF", "GK"), 0.3%float);
    (("DEF", "ST"), 0.4%float) ].

Definition scenario_modifiers : list (string * float) :=
  [ ("shooting", (-0.1)%float);
    ("dribbling", 0.0%float);
    ("passing", 0.1%float);
    ("corner_kick", 0.2%float);
    ("free_kick", 0.15%float);
    ("penalty", 0.8%float) ].

Definition calculate_success_probability
    (attacker_role defender_role scenario : string) : float :=
  let key := (upper attacker_role, upper defender_role) in
  let base_prob := PyDict.get_default role_advantages key 0.5%float in
  let scenario_mod :=
    PyDict.get_default scenario_modifiers (lower scenario) 0.0%float in
  py_max 0.1%float (py_min 0.9%float (base_prob + scenario_mod)%float).

(** The clamping expression [max(0.1, min(0.9, x))]. *)
Definition clamp (x : float) : float :=
  py_max 0.1%float (py_min 0.9%float x).

(** [0.1 <= p <= 0.9] on floats. *)
Definition clamped (p : float) : bool :=
  ((0.1 <=? p) && (p <=? 0.9))%float.

(** The dict literal [required_positions]; iteration follows this order. *)
Definition required_positions : list (string * Z) :=
  [ ("GK", 1); ("DEF", 1); ("MF", 1); ("ST", 1) ].

(** [counts.get(position, 0)] on the dict under construction. *)
Definition count_of (counts : gmap string Z) (position : string) : Z :=
  default 0 (counts !! position).

(** One turn of the first loop of [validate_team_formation]. *)
Definition count_step (position_counts : gmap string Z)
    (item : string * string) : gmap string Z :=
  let position := upper (snd item) in
  <[position := count_of position_counts position + 1]> position_counts.

(** The first loop: [team_players.items()] visited in insertion order,
    starting from the empty dict. *)
Definition count_positions (team_players : list (string * string))
  : gmap string Z :=
  fold_left count_step team_players ∅.

(** The second loop: return at the first required position that is short. *)
Fixpoint check_required (position_counts : gmap string Z)
    (required : list (string * Z)) : bool * string :=
  match required with
  | [] => (true, "Formation is valid")
  | (position, required_count) :: rest =>
      if (count_of position_counts position <? required_count)%Z then
        (false,
         "Team needs at least " +:+ str_of_int required_count
           +:+ " " +:+ position)
      else check_required position_counts rest
  end.

(** [team_players] is the dict of player ids to positions, as the list of
    its items. *)
Definition validate_team_formation (team_players : list (string * string))
  : bool * string :=
  check_required (count_positions team_players) required_positions.

(** How many players of the roster hold [role], positions upper-cased. *)
Definition occurrences (team_players : list (string * string))
    (role : string) : Z :=
  Z.of_nat
    (length (List.filter (fun item => eqs (upper (snd item)) role) team_players)).

(** The roster has a player whose position, upper-cased, is [role]. *)
Definition has_role (team_players : list (string * string)) (role : string)
  : bool :=
  existsb (fun item => eqs (upper (snd item)) role) team_players.

(** The first role, in the iteration order of [required_positions], that no
    player of the roster holds. *)
Definition first_missing (team_players : list (string * string))
  : option string :=
  List.find (fun role => negb (has_role team_players role))
    (map fst required_positions).

(** The dict literal [descriptions] of [get_scenario_description]. *)
Definition descriptions : list (string * string) :=
  [ ("dribbling", "Player attempts to dribble past opponent");
    ("passing", "Player attempts to pass the ball");
    ("shooting", "Player takes a shot on goal");
    ("corner_kick", "Corner kick situation");
    ("free_kick", "Free kick awarded");
    ("penalty", "Penalty kick situation");
    ("tackle", "Defender attempts to tackle");
    ("interception", "Player attempts to intercept pass");
    ("long_shot", "Long-range shot attempt");
    ("quick_pass", "Quick pass attempt");
    ("default", "General gameplay situation") ].

(** [descriptions["default"]]; the key is in the literal. *)
Definition descriptions_default : string :=
  PyDict.get_default descriptions "default" "".

Definition get_scenario_description (scenario : string) : string :=
  PyDict.get_default descriptions (lower scenario) descriptions_default.

(** The seven values the [result] key can take. *)
Definition outcomes : list string :=
  [ "invalid_action"; "save"; "foul"; "interception"; "goal"; "success";
    "blocked" ].

End GameLogic.

(** ** game_logic.py: class MatchState *)

Module MatchState.

Import PyStr.

Record MatchState := mkMatchState {
  match_id : string;
  score : gmap string Z;
  possession : string;
  current_scenario : string;
  turn_count : Z;
  match_time : Z;
  status : string;
  stats : gmap string (gmap string Z)
}.

Definition zero_stats : gmap string Z :=
  <["shots" := 0]> (<["saves" := 0]> (<["fouls" := 0]> (<["corners" := 0]> ∅))).

(** [MatchState.__init__] *)
Definition init (match_id : string) : MatchState :=
  {| match_id := match_id;
     score := <["A" := 0]> (<["B" := 0]> ∅);
     possession := "A";
     current_scenario := "kickoff";
     turn_count := 0;
     match_time := 0;
     status := "active";
     stats := <["A" := zero_stats]> (<["B" := zero_stats]> ∅) |}.

Definition set_score (self : MatchState) (v : gmap string Z) : MatchState :=
  {| match_id := match_id self; score := v; possession := possession self;
     current_scenario := current_scenario self; turn_count := turn_count self;
     match_time := match_time self; status := status self;
     stats := stats self |}.

Definition set_possession (self : MatchState) (v : string) : MatchState :=
  {| match_id := match_id self; score := score self; possession := v;
     current_scenario := current_scenario self; turn_count := turn_count self;
     match_time := match_time self; status := status self;
     stats := stats self |}.

Definition set_stats (self : MatchState) (v : gmap string (gmap string Z))
  : MatchState :=
  {| match_id := match_id self; score := score self;
     possession := possession self;
     current_scenario := current_scenario self; turn_count := turn_count self;
     match_time := match_time self; status := status self;
     stats := v |}.

Definition update_score (self : MatchState) (team : string) (points : Z)
  : MatchState :=
  match score self !! team with
  | Some old => set_score self (<[team := old + points]> (score self))
  | None => self
  end.

Definition switch_possession (self : MatchState) : MatchState :=
  set_possession self (if eqs (possession self) "A" then "B" else "A").

Definition update_stats (self : MatchState) (team stat_type : string)
    (value : Z) : MatchState :=
  match stats self !! team with
  | Some team_stats =>
      match team_stats !! stat_type with
      | Some old =>
          set_stats self
            (<[team := <[stat_type := old + value]> team_stats]> (stats self))
      | None => self
      end
  | None => self
  end.

(** The dict [get_match_summary] returns.  [score.copy()] and
    [stats.copy()] are new dicts with the same entries; maps are values
    here, so a copy is the map itself. *)
Record Summary := mkSummary {
  sum_match_id : string;
  sum_score : gmap string Z;
  sum_possession : string;
  sum_scenario : string;
  sum_time : Z;
  sum_status : string;
  sum_stats : gmap string (gmap string Z);
  sum_turn_count : Z
}.

Definition get_match_summary (self : MatchState) : Summary :=
  {| sum_match_id := match_id self;
     sum_score := score self;
     sum_possession := possession self;
     sum_scenario := current_scenario self;
     sum_time := match_time self;
     sum_status := status self;
     sum_stats := stats self;
     sum_turn_count := turn_count self |}.

(** A call of one of the four methods, with its arguments. *)
Inductive op :=
| UpdateScore (team : string) (points : Z)
| SwitchPossession
| UpdateStats (team stat_type : string) (value : Z)
| GetMatchSummary.

(** The object after the call; [get_match_summary] only reads. *)
Definition step (self : MatchState) (o : op) : MatchState :=
  match o with
  | UpdateScore team points => update_score self team points
  | SwitchPossession => switch_possession self
  | UpdateStats team stat_type value => update_stats self team stat_type value
  | GetMatchSummary => self
  end.

(** What the call returns: a summary for [get_match_summary], [None] for
    the three mutators. *)
Definition returned (self : MatchState) (o : op) : option Summary :=
  match o with
  | GetMatchSummary => Some (get_match_summary self)
  | _ => None
  end.

(** A finite sequence of calls on one object. *)
Definition run (self : MatchState) (ops : list op) : MatchState :=
  fold_left step ops self.

(** The possession field holds one of the two team letters. *)
Definition possession_ok (self : MatchState) : Prop :=
  possession self = "A" ∨ possession self = "B".

(** The points the calls of [ops] add to [team] through [update_score]. *)
Fixpoint points_for (team : string) (ops : list op) : Z :=
  match ops with
  | [] => 0
  | UpdateScore team' points :: rest =>
      (if eqs team' team then points else 0) + points_for team rest
  | _ :: rest => points_for team rest
  end.

(** The amount the calls of [ops] add to one counter of one team through
    [update_stats]. *)
Fixpoint tally (team stat_type : string) (ops : list op) : Z :=
  match ops with
  | [] => 0
  | UpdateStats team' stat_type' value :: rest =>
      (if eqs team' team && eqs stat_type' stat_type then value else 0)
        + tally team stat_type rest
  | _ :: rest => tally team stat_type rest
  end.

(** How many of the calls are [switch_possession]. *)
Fixpoint switches (ops : list op) : nat :=
  match ops with
  | [] => 0%nat
  | SwitchPossession :: rest => S (switches rest)
  | _ :: rest => switches rest
  end.

(** [self.stats[team][stat_type]], when both keys exist. *)
Definition stat_of (self : MatchState) (team stat_type : string)
  : option Z :=
  stats self !! team ≫= (fun team_stats => team_stats !! stat_type).

End MatchState.

(** ** game_logic.py: class MatchState, with its dicts as objects

    [self.stats] maps each team to a dict object, and [stats.copy()] in
    [get_match_summary] is a shallow copy: the returned dict holds the same
    two inner objects.  Here the inner dicts live in a heap and the state
    and the summary hold references to them.  The score dict holds integers
    only, so its copy shares nothing and stays a value. *)

Module MatchObjects.

Import PyStr.

(** The address of a dict object. *)
Definition ref : Type := nat.

(** The dict objects allocated so far. *)
Definition heap : Type := gmap ref (gmap string Z).

Record MatchObject := mkMatchObject {
  match_id : string;
  score : gmap string Z;
  possession : string;
  current_scenario : string;
  turn_count : Z;
  match_time : Z;
  status : string;
  stats : gmap string ref
}.

(** Allocate a new dict object. *)
Definition alloc (h : heap) (d : gmap string Z) : heap * ref :=
  let r := fresh (dom h) in (<[r := d]> h, r).

(** [MatchState.__init__]: the two inner dicts of [stats] are new
    objects. *)
Definition init (match_id : string) (h : heap) : heap * MatchObject :=
  let '(h1, ra) := alloc h MatchState.zero_stats in
  let '(h2, rb) := alloc h1 MatchState.zero_stats in
  (h2,
   {| match_id := match_id;
      score := <["A" := 0]> (<["B" := 0]> ∅);
      possession := "A";
      current_scenario := "kickoff";
      turn_count := 0;
      match_time := 0;
      status := "active";
      stats := <["A" := ra]> (<["B" := rb]> ∅) |}).

Definition update_score (self : MatchObject) (team : string) (points : Z)
  : MatchObject :=
  match score self !! team with
  | Some old =>
      {| match_id := match_id self;
         score := <[team := old + points]> (score self);
         possession := possession self;
         current_scenario := current_scenario self;
         turn_count := turn_count self; match_time := match_time self;
         status := status self; stats := stats self |}
  | None => self
  end.

Definition switch_possession (self : MatchObject) : MatchObject :=
  {| match_id := match_id self; score := score self;
     possession := if eqs (possession self) "A" then "B" else "A";
     current_scenario := current_scenario self;
     turn_count := turn_count self; match_time := match_time self;
     status := status self; stats := stats self |}.

(** [self.stats[team][stat_type] += value] writes into the inner dict
    object; [self] keeps the same references. *)
Definition update_stats (h : heap) (self : MatchObject)
    (team stat_type : string) (value : Z) : heap :=
  match stats self !! team with
  | Some r =>
      match h !! r with
      | Some team_stats =>
          match team_stats !! stat_type with
          | Some old => <[r := <[stat_type := old + value]> team_stats]> h
          | None => h
          end
      | None => h
      end
  | None => h
  end.

(** The dict [get_match_summary] returns: [score] is a copy of the score
    dict and [stats] a copy of the outer dict, which holds references. *)
Record Snapshot := mkSnapshot {
  snap_match_id : string;
  snap_score : gmap string Z;
  snap_possession : string;
  snap_scenario : string;
  snap_time : Z;
  snap_status : string;
  snap_stats : gmap string ref;
  snap_turn_count : Z
}.

Definition get_match_summary (self : MatchObject) : Snapshot :=
  {| snap_match_id := match_id self;
     snap_score := score self;
     snap_possession := possession self;
     snap_scenario := current_scenario self;
     snap_time := match_time self;
     snap_status := status self;
     snap_stats := stats self;
     snap_turn_count := turn_count self |}.

(** [summary["stats"][team][stat_type]], read when the heap is [h]. *)
Definition read_stat (h : heap) (summary : Snapshot)
    (team stat_type : string) : option Z :=
  snap_stats summary !! team ≫= fun r =>
  h !! r ≫= fun team_stats => team_stats !! stat_type.

(** One call on the object, in a heap. *)
Definition step (x : heap * MatchObject) (o : MatchState.op)
  : heap * MatchObject :=
  let '(h, self) := x in
  match o with
  | MatchState.UpdateScore team points => (h, update_score self team points)
  | MatchState.SwitchPossession => (h, switch_possession self)
  | MatchState.UpdateStats team stat_type value =>
      (update_stats h self team stat_type value, self)
  | MatchState.GetMatchSummary => (h, self)
  end.

Definition run (x : heap * MatchObject) (ops : list MatchState.op)
  : heap * MatchObject :=
  fold_left step ops x.

(** The dict object behind a reference. *)
Definition deref (h : heap) (r : ref) : gmap string Z := default ∅ (h !! r).

(** The state with every reference replaced by the dict it points to. *)
Definition view (x : heap * MatchObject) : MatchState.MatchState :=
  {| MatchState.match_id := match_id x.2;
     MatchState.score := score x.2;
     MatchState.possession := possession x.2;
     MatchState.current_scenario := current_scenario x.2;
     MatchState.turn_count := turn_count x.2;
     MatchState.match_time := match_time x.2;
     MatchState.status := status x.2;
     MatchState.stats := deref x.1 <$> stats x.2 |}.

(** Every reference of [stats] points to an allocated dict, and no two
    teams share one. *)
Definition well_formed (x : heap * MatchObject) : Prop :=
  (∀ team r, stats x.2 !! team = Some r → is_Some (x.1 !! r)) ∧
  (∀ team team' r,
     stats x.2 !! team = Some r → stats x.2 !! team' = Some r →
     team = team').

End MatchObjects.

(** ** database.py: class DatabaseManager

    The PostgreSQL server and the asyncpg driver are outside the repository:
    a connection is any triple of functions answering [fetchrow], [fetch] and
    [execute] on a store of type [DB], each of which may raise.  The awaited
    calls of one coroutine run in order, so a coroutine is a function of the
    world it starts in. *)

Module Database.

Import PyStr.

(** The Python values a caller passes as keyword arguments or that a query
    takes as parameters. *)
Inductive pyval :=
| VNone
| VBool (b : bool)
| VInt (n : Z)
| VFloat (f : float)
| VStr (s : string)
| VTime (t : Z)
| VList (items : list pyval)
| VTuple (items : list pyval)
| VDict (items : list (pyval * pyval)).

(** [hasattr(value, '__iter__')] *)
Definition has_iter (value : pyval) : bool :=
  match value with
  | VStr _ | VList _ | VTuple _ | VDict _ => true
  | VNone | VBool _ | VInt _ | VFloat _ | VTime _ => false
  end.

(** [isinstance(value, str)] *)
Definition is_str (value : pyval) : bool :=
  match value with
  | VStr _ => true
  | _ => false
  end.

(** A fetched record turned into a dict. *)
Definition row : Type := list (string * pyval).

Inductive exn :=
| AttributeError (msg : string)
| PostgresError (msg : string).

(** [str(e)] *)
Definition exn_text (e : exn) : string :=
  match e with
  | AttributeError msg => msg
  | PostgresError msg => msg
  end.

Inductive res (A : Type) :=
| Ret (a : A)
| Raise (e : exn).

Arguments Ret {A} a.
Arguments Raise {A} e.

Definition nl : string := String (ascii_of_nat 10) "".
Definition ind8 : string := "        ".
Definition ind12 : string := "            ".
Definition ind16 : string := "                ".

(** The [allowed_fields] list of [update_match_score]. *)
Definition allowed_fields : list string :=
  [ "team_a_score"; "team_b_score"; "score_a"; "score_b";
    "shots_a"; "shots_b"; "saves_a"; "saves_b" ].

(** [key in allowed_fields] *)
Definition is_allowed (key : string) : bool :=
  existsb (eqs key) allowed_fields.

(** [dict(result) if result else None]: a record is falsy when it is [None]
    or has no column. *)
Definition dict_or_none (result : option row) : option row :=
  match result with
  | Some (_ :: _ as r) => Some r
  | _ => None
  end.

(** The accumulators of the clause-building loops: [set_clauses], [values]
    and [param_count]. *)
Definition clauses : Type := list string * list pyval * Z.

Definition add_clause (acc : clauses) (key : string) (value : pyval)
  : clauses :=
  let '(set_clauses, values, param_count) := acc in
  ((set_clauses ++ [key +:+ " = $" +:+ str_of_int param_count])%list,
   (values ++ [value])%list,
   param_count + 1).

(** One turn of the loop of [update_player_stats]. *)
Definition stats_step (acc : clauses) (item : string * pyval) : clauses :=
  let '(key, value) := item in
  if has_iter value && negb (is_str value) then acc
  else add_clause acc key value.

(** One turn of the loop of [update_match_score]. *)
Definition score_step (acc : clauses) (item : string * pyval) : clauses :=
  let '(key, value) := item in
  if is_allowed key then add_clause acc key value else acc.

Definition player_stats_query (set_clauses : list string) (param_count : Z)
  : string :=
  nl +:+ ind12 +:+ "UPDATE players " +:+ nl
     +:+ ind12 +:+ "SET " +:+ join ", " set_clauses +:+ nl
     +:+ ind12 +:+ "WHERE user_id = $" +:+ str_of_int (param_count + 1) +:+ nl
     +:+ ind8.

Definition match_score_query (set_clauses : list string) (param_count : Z)
  : string :=
  nl +:+ ind12 +:+ "UPDATE matches " +:+ nl
     +:+ ind12 +:+ "SET " +:+ join ", " set_clauses +:+ nl
     +:+ ind12 +:+ "WHERE match_id = $" +:+ str_of_int param_count +:+ nl
     +:+ ind8.

Definition active_matches_query : string :=
  nl +:+ ind16 +:+ "SELECT * FROM matches " +:+ nl
     +:+ ind16 +:+ "WHERE status IN ('waiting', 'ongoing')" +:+ nl
     +:+ ind16 +:+ "ORDER BY created_at DESC" +:+ nl
     +:+ ind12.

Definition user_active_match_query : string :=
  nl +:+ ind16 +:+ "SELECT * FROM matches " +:+ nl
     +:+ ind16 +:+ "WHERE host_id = $1 AND status IN ('waiting', 'ongoing')"
     +:+ nl
     +:+ ind16 +:+ "LIMIT 1" +:+ nl
     +:+ ind12.

Definition match_players_query : string :=
  nl +:+ ind16 +:+ "SELECT mp.*, p.username, p.display_name" +:+ nl
     +:+ ind16 +:+ "FROM match_players mp" +:+ nl
     +:+ ind16 +:+ "JOIN players p ON mp.user_id = p.user_id" +:+ nl
     +:+ ind16 +:+ "WHERE mp.match_id = $1" +:+ nl
     +:+ ind16 +:+ "ORDER BY mp.team, mp.joined_at" +:+ nl
     +:+ ind12.

Definition match_status_query : string :=
  nl +:+ ind16 +:+ "UPDATE matches " +:+ nl
     +:+ ind16 +:+ "SET status = $1" +:+ nl
     +:+ ind16 +:+ "WHERE match_id = $2" +:+ nl
     +:+ ind12.

Definition match_host_query : string :=
  nl +:+ ind16 +:+ "UPDATE matches " +:+ nl
     +:+ ind16 +:+ "SET host_id = $1" +:+ nl
     +:+ ind16 +:+ "WHERE match_id = $2" +:+ nl
     +:+ ind12.

Definition remove_player_query : string :=
  nl +:+ ind16 +:+ "DELETE FROM match_players " +:+ nl
     +:+ ind16 +:+ "WHERE match_id = $1 AND user_id = $2" +:+ nl
     +:+ ind12.

Definition player_role_query (updates : list string) (param_count : Z)
  : string :=
  nl +:+ ind12 +:+ "UPDATE match_players " +:+ nl
     +:+ ind12 +:+ "SET " +:+ join ", " updates +:+ nl
     +:+ ind12 +:+ "WHERE match_id = $" +:+ str_of_int param_count
     +:+ " AND user_id = $" +:+ str_of_int (param_count + 1) +:+ nl
     +:+ ind8.

(** A keyword argument of [update_player_stats] that the loop keeps: not
    an iterable, or a string. *)
Definition kept_stat (item : string * pyval) : bool :=
  negb (has_iter item.2 && negb (is_str item.2)).

(** A keyword argument of [update_match_score] that the loop keeps: its
    name is on the allow-list. *)
Definition kept_score (item : string * pyval) : bool := is_allowed item.1.

(** The clauses [key = $n] for consecutive numbers from [start]. *)
Fixpoint numbered_clauses (start : Z) (keys : list string) : list string :=
  match keys with
  | [] => []
  | key :: rest =>
      (key +:+ " = $" +:+ str_of_int start)
        :: numbered_clauses (start + 1) rest
  end.

Section Manager.
Context {DB : Type}.

(** What a coroutine can observe and change: the database, the wall clock
    read by [datetime.now()], and the lines sent to [logger.error]. *)
Record World := mkWorld {
  store : DB;
  now : Z;
  errors_logged : list string
}.

(** An acquired connection. *)
Record Connection := mkConnection {
  fetchrow : string -> list pyval -> DB -> res (option row) * DB;
  fetch : string -> list pyval -> DB -> res (list row) * DB;
  execute : string -> list pyval -> DB -> res string * DB
}.

(** [pool.acquire()] hands out a connection or raises. *)
Record Pool := mkPool {
  acquire : res Connection
}.

Record DatabaseManager := mkDatabaseManager {
  pool : option Pool
}.

(** A coroutine: run from a world, it returns or raises and leaves a
    world. *)
Definition M (A : Type) : Type := World -> res A * World.

Definition ret {A} (a : A) : M A := fun w => (Ret a, w).

Definition raise {A} (e : exn) : M A := fun w => (Raise e, w).

Definition bind {A B} (c : M A) (k : A -> M B) : M B :=
  fun w =>
    match c w with
    | (Ret a, w') => k a w'
    | (Raise e, w') => (Raise e, w')
    end.

(** [try: body  except Exception as e: handler(e)] *)
Definition try_except {A} (body : M A) (handler : exn -> M A) : M A :=
  fun w =>
    match body w with
    | (Ret a, w') => (Ret a, w')
    | (Raise e, w') => handler e w'
    end.

(** The world after one more line was sent to [logger.error]. *)
Definition logged (w : World) (line : string) : World :=
  {| store := store w; now := now w;
     errors_logged := (errors_logged w ++ [line])%list |}.

(** [logger.error(line)] *)
Definition logger_error (line : string) : M unit :=
  fun w => (Ret tt, logged w line).

(** [datetime.now()] *)
Definition datetime_now : M Z := fun w => (Ret (now w), w).

(** Run a query function of a connection on the store of the world. *)
Definition on_store {A} (q : DB -> res A * DB) : M A :=
  fun w =>
    let '(r, d) := q (store w) in
    (r, {| store := d; now := now w; errors_logged := errors_logged w |}).

(** [self.pool.acquire()]: the attribute lookup on [None] raises. *)
Definition pool_acquire (self : DatabaseManager) : M Connection :=
  match pool self with
  | None => raise (AttributeError "'NoneType' object has no attribute 'acquire'")
  | Some p =>
      match acquire p with
      | Ret conn => ret conn
      | Raise e => raise e
      end
  end.

Notation "x <- c ;; k" := (bind c (fun x => k))
  (at level 100, c at next level, right associativity).

Definition get_player (self : DatabaseManager) (user_id : Z)
  : M (option row) :=
  match pool self with
  | None =>
      _ <- logger_error "Database pool not initialized" ;;
      ret None
  | Some _ =>
      try_except
        (conn <- pool_acquire self ;;
         result <- on_store
           (fetchrow conn "SELECT * FROM players WHERE user_id = $1"
              [VInt user_id]) ;;
         ret (dict_or_none result))
        (fun e =>
           _ <- logger_error
             ("Error fetching player " +:+ str_of_int user_id +:+ ": "
                +:+ exn_text e) ;;
           ret None)
  end.

Definition get_match (self : DatabaseManager) (match_id : string)
  : M (option row) :=
  match pool self with
  | None =>
      _ <- logger_error "Database pool not initialized" ;;
      ret None
  | Some _ =>
      try_except
        (conn <- pool_acquire self ;;
         result <- on_store
           (fetchrow conn "SELECT * FROM matches WHERE match_id = $1"
              [VStr match_id]) ;;
         ret (dict_or_none result))
        (fun e =>
           _ <- logger_error
             ("Error fetching match " +:+ match_id +:+ ": " +:+ exn_text e) ;;
           ret None)
  end.

Definition get_active_matches (self : DatabaseManager) : M (list row) :=
  conn <- pool_acquire self ;;
  results <- on_store (fetch conn active_matches_query []) ;;
  ret results.

Definition get_user_active_match (self : DatabaseManager) (user_id : Z)
  : M (option row) :=
  conn <- pool_acquire self ;;
  result <- on_store
    (fetchrow conn user_active_match_query [VInt user_id]) ;;
  ret (dict_or_none result).

Definition get_match_players (self : DatabaseManager) (match_id : string)
  : M (list row) :=
  conn <- pool_acquire self ;;
  results <- on_store (fetch conn match_players_query [VStr match_id]) ;;
  ret results.

(** [stats] is the keyword dict, as the list of its items in call order. *)
Definition update_player_stats (self : DatabaseManager) (user_id : Z)
    (stats : list (string * pyval)) : M bool :=
  match stats with
  | [] => ret false
  | _ =>
      let '(set_clauses, values, param_count) :=
        fold_left stats_step stats ([], [], 1) in
      match set_clauses with
      | [] => ret false
      | _ =>
          let set_clauses :=
            (set_clauses ++ ["updated_at = $" +:+ str_of_int param_count])%list
          in
          t <- datetime_now ;;
          let values := (values ++ [VTime t] ++ [VInt user_id])%list in
          let query := player_stats_query set_clauses param_count in
          conn <- pool_acquire self ;;
          result <- on_store (execute conn query values) ;;
          ret (negb (eqs result "UPDATE 0"))
      end
  end.

Definition update_match_score (self : DatabaseManager) (match_id : string)
    (score_data : list (string * pyval)) : M bool :=
  match score_data with
  | [] => ret false
  | _ =>
      let '(set_clauses, values, param_count) :=
        fold_left score_step score_data ([], [], 1) in
      match set_clauses with
      | [] => ret false
      | _ =>
          let values := (values ++ [VStr match_id])%list in
          let query := match_score_query set_clauses param_count in
          conn <- pool_acquire self ;;
          result <- on_store (execute conn query values) ;;
          ret (negb (eqs result "UPDATE 0"))
      end
  end.

Definition delete_match (self : DatabaseManager) (match_id : string)
  : M bool :=
  conn <- pool_acquire self ;;
  result <- on_store
    (execute conn "DELETE FROM matches WHERE match_id = $1"
       [VStr match_id]) ;;
  ret (negb (eqs result "DELETE 0")).

Definition update_match_status (self : DatabaseManager)
    (match_id status : string) : M bool :=
  conn <- pool_acquire self ;;
  result <- on_store
    (execute conn match_status_query [VStr status; VStr match_id]) ;;
  ret (negb (eqs result "UPDATE 0")).

Definition update_match_host (self : DatabaseManager) (match_id : string)
    (new_host_id : Z) : M bool :=
  conn <- pool_acquire self ;;
  result <- on_store
    (execute conn match_host_query [VInt new_host_id; VStr match_id]) ;;
  ret (negb (eqs result "UPDATE 0")).

Definition remove_player_from_match (self : DatabaseManager)
    (match_id : string) (user_id : Z) : M bool :=
  conn <- pool_acquire self ;;
  result <- on_store
    (execute conn remove_player_query [VStr match_id; VInt user_id]) ;;
  ret (negb (eqs result "DELETE 0")).

(** The keyword arguments [team], [role] and [is_captain] default to
    [None]. *)
Definition update_player_role (self : DatabaseManager) (match_id : string)
    (user_id : Z) (team role : option string) (is_captain : option bool)
  : M bool :=
  let acc : clauses := ([], [], 1) in
  let acc :=
    match team with
    | Some t => add_clause acc "team" (VStr t)
    | None => acc
    end in
  let acc :=
    match role with
    | Some r => add_clause acc "role" (VStr r)
    | None => acc
    end in
  let acc :=
    match is_captain with
    | Some c => add_clause acc "is_captain" (VBool c)
    | None => acc
    end in
  let '(updates, values, param_count) := acc in
  match updates with
  | [] => ret false
  | _ =>
      let values := (values ++ [VStr match_id; VInt user_id])%list in
      let query := player_role_query updates param_count in
      conn <- pool_acquire self ;;
      result <- on_store (execute conn query values) ;;
      ret (negb (eqs result "UPDATE 0"))
  end.

Definition update_team_name (self : DatabaseManager)
    (match_id team name : string) : M bool :=
  let column := "team_" +:+ lower team +:+ "_name" in
  let query :=
    "UPDATE matches SET " +:+ column +:+ " = $1 WHERE match_id = $2" in
  conn <- pool_acquire self ;;
  result <- on_store (execute conn query [VStr name; VStr match_id]) ;;
  ret (negb (eqs result "UPDATE 0")).

(** What every write does once its statement is built: acquire a
    connection, execute, and report whether the status differs from the
    zero-row status. *)
Definition send (self : DatabaseManager) (query : string)
    (values : list pyval) (zero_rows : string) : M bool :=
  conn <- pool_acquire self ;;
  result <- on_store (execute conn query values) ;;
  ret (negb (eqs result zero_rows)).

End Manager.

Arguments World : clear implicits.
Arguments Connection : clear implicits.
Arguments Pool : clear implicits.
Arguments DatabaseManager : clear implicits.

(** A database that only records the statements it is sent: every
    [execute] is appended to the store and reports one affected row, and
    every read finds nothing. *)
Definition recorder : Connection (list (string * list pyval)) :=
  {| fetchrow := fun _ _ d => (Ret None, d);
     fetch := fun _ _ d => (Ret [], d);
     execute := fun q vs d => (Ret "UPDATE 1", (d ++ [(q, vs)])%list) |}.

(** A connection on which every query fails. *)
Definition broken : Connection (list (string * list pyval)) :=
  {| fetchrow := fun _ _ d => (Raise (PostgresError "connection is closed"), d);
     fetch := fun _ _ d => (Raise (PostgresError "connection is closed"), d);
     execute := fun _ _ d => (Raise (PostgresError "connection is closed"), d) |}.

Definition manager_of (conn : Connection (list (string * list pyval)))
  : DatabaseManager (list (string * list pyval)) :=
  {| pool := Some {| acquire := Ret conn |} |}.

(** The manager before [initialize] has run. *)
Definition uninitialized : DatabaseManager (list (string * list pyval)) :=
  {| pool := None |}.

Definition fresh_world : World (list (string * list pyval)) :=
  {| store := []; now := 0; errors_logged := [] |}.

(** The names and values of the keyword arguments of
    [update_player_role] that are not [None], in the order the method tests
    them. *)
Definition role_fields (team role : option string)
    (is_captain : option bool) : list (string * pyval) :=
  (match team with Some t => [("team", VStr t)] | None => [] end
   ++ match role with Some r => [("role", VStr r)] | None => [] end
   ++ match is_captain with
      | Some c => [("is_captain", VBool c)]
      | None => []
      end)%list.

End Database.

(** ** database.py: DatabaseManager.initialize and create_tables

    [asyncpg.create_pool] is outside the repository: [connect n] is what its
    call in attempt number [n] (from 0) returns or raises. *)

Module Startup.

Import PyStr Database.

(** A triple-quoted statement of [create_tables]: a line feed, the lines,
    a line feed and the indentation of the closing quotes. *)
Definition sql_block (lines : list string) : string :=
  nl +:+ join nl lines +:+ nl +:+ ind12.

Definition players_table_sql : string :=
  sql_block
    [ "                CREATE TABLE IF NOT EXISTS players (";
      "                    user_id BIGINT PRIMARY KEY,";
      "                    username VARCHAR(100) NOT NULL,";
      "                    display_name VARCHAR(100),";
      "                    matches_played INTEGER DEFAULT 0,";
      "                    matches_won INTEGER DEFAULT 0,";
      "                    matches_lost INTEGER DEFAULT 0,";
      "                    goals INTEGER DEFAULT 0,";
      "                    assists INTEGER DEFAULT 0,";
      "                    saves INTEGER DEFAULT 0,";
      "                    tackles INTEGER DEFAULT 0,";
      "                    interceptions INTEGER DEFAULT 0,";
      "                    hat_tricks INTEGER DEFAULT 0,";
      "                    mvps INTEGER DEFAULT 0,";
      "                    rating DECIMAL(4,2) DEFAULT 6.00,";
      "                    created_at TIMESTAMP DEFAULT CURRENT_TIMESTAMP,";
      "                    updated_at TIMESTAMP DEFAULT CURRENT_TIMESTAMP";
      "                )" ].

Definition matches_table_sql : string :=
  sql_block
    [ "                CREATE TABLE IF NOT EXISTS matches (";
      "                    match_id VARCHAR(50) PRIMARY KEY,";
      "                    host_id BIGINT NOT NULL,";
      "                    channel_id BIGINT NOT NULL,";
      "                    status VARCHAR(20) DEFAULT 'waiting',";
      "                    team_a_name VARCHAR(100) DEFAULT 'Team A',";
      "                    team_b_name VARCHAR(100) DEFAULT 'Team B',";
      "                    team_a_score INTEGER DEFAULT 0,";
      "                    team_b_score INTEGER DEFAULT 0,";
      "                    score_a INTEGER DEFAULT 0,";
      "                    score_b INTEGER DEFAULT 0,";
      "                    shots_a INTEGER DEFAULT 0,";
      "                    shots_b INTEGER DEFAULT 0,";
      "                    saves_a INTEGER DEFAULT 0,";
      "                    saves_b INTEGER DEFAULT 0,";
      "                    created_at TIMESTAMP DEFAULT CURRENT_TIMESTAMP,";
      "                    started_at TIMESTAMP,";
      "                    ended_at TIMESTAMP";
      "                )" ].

Definition match_players_table_sql : string :=
  sql_block
    [ "                CREATE TABLE IF NOT EXISTS match_players (";
      "                    id SERIAL PRIMARY KEY,";
      "                    match_id VARCHAR(50) REFERENCES matches(match_id) ON DELETE CASCADE,";
      "                    user_id BIGINT REFERENCES players(user_id) ON DELETE CASCADE,";
      "                    team VARCHAR(1) CHECK (team IN ('A', 'B')),";
      "                    role VARCHAR(3) CHECK (role IN ('ST', 'MF', 'DEF', 'GK')),";
      "                    is_captain BOOLEAN DEFAULT FALSE,";
      "                    joined_at TIMESTAMP DEFAULT CURRENT_TIMESTAMP,";
      "                    UNIQUE(match_id, user_id)";
      "                )" ].

Definition match_events_table_sql : string :=
  sql_block
    [ "                CREATE TABLE IF NOT EXISTS match_events (";
      "                    id SERIAL PRIMARY KEY,";
      "                    match_id VARCHAR(50) REFERENCES matches(match_id) ON DELETE CASCADE,";
      "                    event_type VARCHAR(20) NOT NULL,";
      "                    player1_id BIGINT,";
      "                    player2_id BIGINT,";
      "                    team VARCHAR(1),";
      "                    description TEXT,";
      "                    minute INTEGER,";
      "                    created_at TIMESTAMP DEFAULT CURRENT_TIMESTAMP";
      "                )" ].

(** The statements [create_tables] executes, in order. *)
Definition schema_statements : list string :=
  [ players_table_sql;
    matches_table_sql;
    match_players_table_sql;
    match_events_table_sql;
    "CREATE INDEX IF NOT EXISTS idx_matches_host ON matches(host_id)";
    "CREATE INDEX IF NOT EXISTS idx_matches_status ON matches(status)";
    "CREATE INDEX IF NOT EXISTS idx_match_players_match ON match_players(match_id)";
    "CREATE INDEX IF NOT EXISTS idx_match_players_user ON match_players(user_id)";
    "CREATE INDEX IF NOT EXISTS idx_match_events_match ON match_events(match_id)" ].

(** What can be raised during start-up: an error of the driver, an
    operating-system error of the connection attempt, or the
    [RuntimeError] of [create_tables]. *)
Inductive failure :=
| Driver (e : exn)
| OSError (msg : string)
| RuntimeError (msg : string).

(** [str(e)] *)
Definition failure_text (e : failure) : string :=
  match e with
  | Driver e => exn_text e
  | OSError msg => msg
  | RuntimeError msg => msg
  end.

Inductive outcome (A : Type) :=
| Done (a : A)
| Failed (e : failure).

Arguments Done {A} a.
Arguments Failed {A} e.

(** The delays [2 ** attempt] of the first [m] attempts. *)
Definition backoff (m : nat) : list Z :=
  map (fun attempt => 2 ^ Z.of_nat attempt) (seq 0 m).


Section Boot.
Context {DB : Type}.

(** What start-up can observe and change: the manager object (its [pool]
    attribute), the world of the persistence layer (its error log receives
    [logger.error]), the lines sent to [logger.info], and the delays passed
    to [asyncio.sleep]. *)
Record Boot := mkBoot {
  manager : DatabaseManager DB;
  world : World DB;
  info_logged : list string;
  slept : list Z
}.

(** [self.pool = p] *)
Definition set_pool (b : Boot) (p : Pool DB) : Boot :=
  {| manager := {| pool := Some p |}; world := world b;
     info_logged := info_logged b; slept := slept b |}.

(** [logger.info(line)] *)
Definition log_info (b : Boot) (line : string) : Boot :=
  {| manager := manager b; world := world b;
     info_logged := (info_logged b ++ [line])%list; slept := slept b |}.

(** [logger.error(line)] *)
Definition log_error (b : Boot) (line : string) : Boot :=
  {| manager := manager b; world := logged (world b) line;
     info_logged := info_logged b; slept := slept b |}.

(** [await asyncio.sleep(seconds)] *)
Definition sleep (b : Boot) (seconds : Z) : Boot :=
  {| manager := manager b; world := world b;
     info_logged := info_logged b; slept := (slept b ++ [seconds])%list |}.

Definition set_store (b : Boot) (d : DB) : Boot :=
  {| manager := manager b;
     world := {| store := d; now := now (world b);
                 errors_logged := errors_logged (world b) |};
     info_logged := info_logged b; slept := slept b |}.

(** The statements of [create_tables] on one connection, stopping at the
    first that raises. *)
Fixpoint execute_all (conn : Connection DB) (statements : list string)
    (d : DB) : res unit * DB :=
  match statements with
  | [] => (Ret tt, d)
  | query :: rest =>
      match execute conn query [] d with
      | (Ret _, d') => execute_all conn rest d'
      | (Raise e, d') => (Raise e, d')
      end
  end.

Definition create_tables (b : Boot) : outcome unit * Boot :=
  match pool (manager b) with
  | None => (Failed (RuntimeError "Database pool not initialized"), b)
  | Some p =>
      match acquire p with
      | Raise e => (Failed (Driver e), b)
      | Ret conn =>
          match execute_all conn schema_statements (store (world b)) with
          | (Ret _, d) =>
              (Done tt,
               log_info (set_store b d)
                 "Database tables created/verified successfully")
          | (Raise e, d) => (Failed (Driver e), set_store b d)
          end
      end
  end.

(** The body of the [try] of [initialize] in attempt number [attempt]. *)
Definition attempt_body (connect : nat -> outcome (Pool DB)) (attempt : nat)
    (b : Boot) : outcome unit * Boot :=
  match connect attempt with
  | Failed e => (Failed e, b)
  | Done p =>
      create_tables (log_info (set_pool b p) "Database pool created successfully")
  end.

(** The [for] loop of [initialize] over the attempts still to make. *)
Fixpoint retry_loop (connect : nat -> outcome (Pool DB)) (max_retries : Z)
    (attempts : list nat) (b : Boot) : outcome unit * Boot :=
  match attempts with
  | [] => (Done tt, b)
  | attempt :: rest =>
      match attempt_body connect attempt b with
      | (Done _, b') => (Done tt, b')
      | (Failed e, b') =>
          let b' :=
            log_error b'
              ("Failed to initialize database (attempt "
                 +:+ str_of_int (Z.of_nat attempt + 1) +:+ "/"
                 +:+ str_of_int max_retries +:+ "): " +:+ failure_text e) in
          if Z.of_nat attempt <? max_retries - 1 then
            let wait_time := 2 ^ Z.of_nat attempt in
            let b' :=
              log_info b'
                ("Retrying in " +:+ str_of_int wait_time +:+ " seconds...") in
            retry_loop connect max_retries rest (sleep b' wait_time)
          else
            (Failed e,
             log_error b'
               "Max retries reached. Database initialization failed.")
      end
  end.

(** [range(max_retries)] is empty when [max_retries] is not positive. *)
Definition initialize (connect : nat -> outcome (Pool DB)) (max_retries : Z)
    (b : Boot) : outcome unit * Boot :=
  retry_loop connect max_retries (seq 0 (Z.to_nat max_retries)) b.

(** [init_database]: [db_manager.initialize()] with the default of three
    attempts. *)
Definition init_database (connect : nat -> outcome (Pool DB)) (b : Boot)
  : outcome unit * Boot :=
  initialize connect 3 b.

End Boot.

Arguments Boot : clear implicits.

(** The process before start-up, on the recording database. *)
Definition cold_boot : Boot (list (string * list pyval)) :=
  {| manager := uninitialized; world := fresh_world;
     info_logged := []; slept := [] |}.

(** A server that refuses the first [k] connection attempts and then hands
    out a pool on the connection [conn]. *)
Definition up_after (k : nat) (conn : Connection (list (string * list pyval)))
    (attempt : nat) : outcome (Pool (list (string * list pyval))) :=
  if (attempt <? k)%nat then Failed (OSError "connection refused")
  else Done {| acquire := Ret conn |}.

End Startup.

(** ** utils.py and config.py: validation of user-supplied names *)

Module Utils.

Import PyStr.

(** [Config.VALID_ROLES] and [Config.VALID_TEAMS]. *)
Definition VALID_ROLES : list string := [ "ST"; "MF"; "DEF"; "GK" ].
Definition VALID_TEAMS : list string := [ "A"; "B" ].

(** The ASCII characters [str.strip()] removes: tab, line feed, vertical
    tab, form feed, carriage return, the four separators 28..31 and the
    space. *)
Definition is_space (c : ascii) : bool :=
  let n := N_of_ascii c in
  (((9 <=? n) && (n <=? 13)) || ((28 <=? n) && (n <=? 32)))%N.

(** [s.lstrip()] *)
Fixpoint lstrip (s : string) : string :=
  match s with
  | EmptyString => EmptyString
  | String c r => if is_space c then lstrip r else s
  end.

(** [s.rstrip()] *)
Fixpoint rstrip (s : string) : string :=
  match s with
  | EmptyString => EmptyString
  | String c r =>
      match rstrip r with
      | EmptyString => if is_space c then EmptyString else String c EmptyString
      | kept => String c kept
      end
  end.

(** [s.strip()] *)
Definition strip (s : string) : string := rstrip (lstrip s).

(** A validator returns the normalized name or raises
    [ValidationError]. *)
Inductive validated :=
| Valid (name : string)
| ValidationError (msg : string).

(** [name in names] on a list of strings. *)
Definition listed (name : string) (names : list string) : bool :=
  existsb (eqs name) names.

Definition validate_team (team : string) : validated :=
  let team := strip (upper team) in
  if negb (listed team VALID_TEAMS) then
    ValidationError ("Team must be one of: " +:+ join ", " VALID_TEAMS)
  else Valid team.

Definition validate_role (role : string) : validated :=
  let role := strip (upper role) in
  if negb (listed role VALID_ROLES) then
    ValidationError ("Role must be one of: " +:+ join ", " VALID_ROLES)
  else Valid role.

(** The dict literal [role_names] of [get_role_name]. *)
Definition role_names : list (string * string) :=
  [ ("ST", "Striker");
    ("MF", "Midfielder");
    ("DEF", "Defender");
    ("GK", "Goalkeeper") ].

Definition get_role_name (role : string) : string :=
  PyDict.get_default role_names (upper role) "Unknown".

(** Every character of the string is one that [strip] removes. *)
Fixpoint blank (s : string) : bool :=
  match s with
  | EmptyString => true
  | String c r => is_space c && blank r
  end.

End Utils.

(** * Properties *)

(** ** Strings and dictionaries *)

Module PyFacts.

Import PyStr.

Lemma eqs_true a b : eqs a b = true ↔ a = b.
Proof. unfold eqs. apply bool_decide_eq_true. Qed.

Lemma eqs_false a b : eqs a b = false ↔ a ≠ b.
Proof. unfold eqs. apply bool_decide_eq_false. Qed.

Lemma upper_ascii_idem c : upper_ascii (upper_ascii c) = upper_ascii c.
Proof. destruct c as [[] [] [] [] [] [] [] []]; reflexivity. Qed.

Lemma upper_idem s : upper (upper s) = upper s.
Proof.
  induction s as [|c r IH]; simpl; [reflexivity|].
  by rewrite upper_ascii_idem, IH.
Qed.

Lemma lower_ascii_idem c : lower_ascii (lower_ascii c) = lower_ascii c.
Proof. destruct c as [[] [] [] [] [] [] [] []]; reflexivity. Qed.

Lemma lower_idem s : lower (lower s) = lower s.
Proof.
  induction s as [|c r IH]; simpl; [reflexivity|].
  by rewrite lower_ascii_idem, IH.
Qed.

(** The only characters that upper-case to G are G and g; likewise K. *)
Lemma upper_ascii_G c :
  upper_ascii c = "G"%char ↔ c = "G"%char ∨ c = "g"%char.
Proof.
  split.
  - destruct c as [[] [] [] [] [] [] [] []]; vm_compute; intros H;
      first [discriminate H | by left | by right].
  - intros [-> | ->]; reflexivity.
Qed.

Lemma upper_ascii_K c :
  upper_ascii c = "K"%char ↔ c = "K"%char ∨ c = "k"%char.
Proof.
  split.
  - destruct c as [[] [] [] [] [] [] [] []]; vm_compute; intros H;
      first [discriminate H | by left | by right].
  - intros [-> | ->]; reflexivity.
Qed.

(** "GK in any letter case": exactly the four spellings. *)
Lemma upper_GK s :
  upper s = "GK" ↔ s = "GK" ∨ s = "Gk" ∨ s = "gK" ∨ s = "gk".
Proof.
  split.
  - destruct s as [|c1 [|c2 [|c3 r]]]; simpl; try discriminate.
    intros H. injection H as H1 H2.
    apply upper_ascii_G in H1. apply upper_ascii_K in H2.
    destruct H1 as [-> | ->], H2 as [-> | ->]; auto.
  - intros [-> | [-> | [-> | ->]]]; reflexivity.
Qed.

Section Get.
Context {K V : Type} `{EqDecision K}.

Lemma get_absent (d : list (K * V)) key :
  key ∉ d.*1 → PyDict.get d key = None.
Proof.
  induction d as [|[k v] rest IH]; simpl; [done|].
  intros Hnot. apply not_elem_of_cons in Hnot as [Hne Hrest].
  destruct (decide (k = key)) as [->|_]; [done|]. by apply IH.
Qed.

Lemma get_present (d : list (K * V)) key v :
  PyDict.get d key = Some v → (key, v) ∈ d.
Proof.
  induction d as [|[k v'] rest IH]; simpl; [done|].
  destruct (decide (k = key)) as [->|_].
  - intros [= ->]. apply list_elem_of_here.
  - intros H. apply list_elem_of_further. by apply IH.
Qed.

Lemma get_default_absent (d : list (K * V)) key dflt :
  key ∉ d.*1 → PyDict.get_default d key dflt = dflt.
Proof. intros H. unfold PyDict.get_default. by rewrite get_absent. Qed.

Lemma get_default_value (d : list (K * V)) key dflt :
  In (PyDict.get_default d key dflt) (dflt :: map snd d).
Proof.
  unfold PyDict.get_default.
  destruct (PyDict.get d key) as [v|] eqn:E; [right|by left].
  apply get_present, list_elem_of_In in E.
  apply in_map_iff. by exists (key, v).
Qed.

End Get.

End PyFacts.

(** ** The action resolver *)

Module GameLogicFacts.

Import PyStr GameLogic PyFacts.

Lemma in_range_spec lo hi x : in_range (lo, hi) x = true ↔ lo ≤ x ≤ hi.
Proof. unfold in_range. simpl. rewrite andb_true_iff. lia. Qed.

Lemma in_range_yes lo hi x : lo ≤ x ≤ hi → in_range (lo, hi) x = true.
Proof. apply in_range_spec. Qed.

Lemma in_range_no lo hi x : ¬ (lo ≤ x ≤ hi) → in_range (lo, hi) x = false.
Proof.
  intros H. apply not_true_is_false. by rewrite in_range_spec.
Qed.

Lemma ranges_default_value : ranges_default = (1, 3).
Proof. reflexivity. Qed.

(** Every range of the table is a non-empty interval within 1..6. *)
Lemma ranges_table_bounds :
  forallb (fun r : Z * Z => (1 <=? r.1) && (r.1 <=? r.2) && (r.2 <=? 6))
    (ranges_default :: map snd ranges) = true.
Proof. vm_compute. reflexivity. Qed.

Lemma get_action_range_bounds ar dr sc :
  let r := get_action_range ar dr sc in 1 ≤ r.1 ∧ r.1 ≤ r.2 ∧ r.2 ≤ 6.
Proof.
  pose proof ranges_table_bounds as Htable.
  rewrite forallb_forall in Htable.
  specialize (Htable _ (get_default_value ranges
                          (upper ar, upper dr, lower sc) ranges_default)).
  intros r. fold (get_action_range ar dr sc) in Htable. fold r in Htable.
  apply andb_true_iff in Htable as [Htable H3].
  apply andb_true_iff in Htable as [H1 H2]. lia.
Qed.

(** The lookup depends on the names only up to letter case. *)
Lemma get_action_range_case_insensitive ar dr sc :
  get_action_range (upper ar) (upper dr) (lower sc) =
    get_action_range ar dr sc.
Proof.
  unfold get_action_range. by rewrite !upper_idem, lower_idem.
Qed.

(** C6: a triple whose normalised form (roles upper-cased, scenario
    lower-cased) is not a key of the static range table resolves to the
    default range (1, 3). *)
Theorem get_action_range_absent_is_default ar dr sc :
  (upper ar, upper dr, lower sc) ∉ ranges.*1 →
  get_action_range ar dr sc = (1, 3).
Proof.
  intros Habsent. unfold get_action_range.
  rewrite get_default_absent by exact Habsent.
  apply ranges_default_value.
Qed.

Lemma get_action_range_absent_is_default_witness :
  ("WINGER", "GK", "shooting") ∉ ranges.*1 ∧
  get_action_range "Winger" "gk" "SHOOTING" = (1, 3).
Proof.
  assert (H : (upper "Winger", upper "gk", lower "SHOOTING") ∉ ranges.*1).
  { apply (bool_decide_unpack _). vm_compute. exact I. }
  split; [exact H|].
  exact (get_action_range_absent_is_default "Winger" "gk" "SHOOTING" H).
Defined.

(** C5: when a submitted integer is outside the resolved inclusive range,
    the outcome is "invalid_action" with success false, and the description
    names the role of the side that is out of range: the attacker's when the
    attacker's integer is out of range, otherwise the defender's. *)
Theorem evaluate_action_out_of_range a d ar dr sc lo hi :
  get_action_range ar dr sc = (lo, hi) →
  ¬ (lo ≤ a ≤ hi) ∨ ¬ (lo ≤ d ≤ hi) →
  let out := evaluate_action a d ar dr sc in
  result out = "invalid_action" ∧
  success out = false ∧
  description out =
    "Invalid action for " +:+ (if decide (lo ≤ a ≤ hi) then dr else ar)
      +:+ ". Must be between " +:+ str_of_int lo +:+ "-" +:+ str_of_int hi.
Proof.
  intros Hr Hout. unfold evaluate_action. rewrite Hr.
  destruct (decide (lo ≤ a ≤ hi)) as [Ha|Ha].
  - rewrite (in_range_yes _ _ _ Ha). simpl negb. cbv iota.
    destruct Hout as [Hout|Hd]; [contradiction|].
    rewrite (in_range_no _ _ _ Hd). simpl. auto.
  - rewrite (in_range_no _ _ _ Ha). simpl. auto.
Qed.

Lemma evaluate_action_out_of_range_witness :
  result (evaluate_action 2 9 "St" "gk" "shooting") = "invalid_action" ∧
  success (evaluate_action 2 9 "St" "gk" "shooting") = false ∧
  description (evaluate_action 2 9 "St" "gk" "shooting") =
    "Invalid action for gk. Must be between 1-6".
Proof.
  apply (evaluate_action_out_of_range 2 9 "St" "gk" "shooting" 1 6).
  - reflexivity.
  - right. lia.
Defined.

(** Case split on every string test of the goal, on both sides. *)
Ltac split_role_tests :=
  repeat case_bool_decide; cbn [andb];
  repeat case_decide; first [reflexivity | tauto].

(** The three comparisons of [evaluate_action], once both integers have
    passed the range check. *)
Lemma evaluate_action_in_range a d ar dr sc lo hi :
  get_action_range ar dr sc = (lo, hi) →
  lo ≤ a ≤ hi → lo ≤ d ≤ hi →
  result (evaluate_action a d ar dr sc) =
    if decide (a = d) then
      if decide (upper dr = "GK") then "save"
      else if decide (upper ar = "ST" ∧ upper dr = "DEF") then "foul"
      else "interception"
    else if decide (d < a) then
      if decide (sc = "shooting" ∧ upper dr = "GK") then "goal" else "success"
    else
      if decide (upper dr = "GK") then "save" else "blocked".
Proof.
  intros Hr Ha Hd. unfold evaluate_action. rewrite Hr.
  rewrite (in_range_yes _ _ _ Ha), (in_range_yes _ _ _ Hd). simpl negb.
  cbv iota. unfold eqs.
  destruct (decide (a = d)) as [->|Hne].
  - rewrite Z.eqb_refl. split_role_tests.
  - apply Z.eqb_neq in Hne as Hneb. rewrite Hneb.
    destruct (decide (d < a)) as [Hlt|Hge].
    + assert ((a >? d) = true) as -> by lia. split_role_tests.
    + assert ((a >? d) = false) as -> by lia. split_role_tests.
Qed.

(** C3: for equal submitted integers inside the resolved range, the outcome
    is "save" when the defender role upper-cases to GK, "foul" when the
    attacker is ST and the defender is DEF, and "interception" in every
    other combination of roles. *)
Theorem evaluate_action_equal a d ar dr sc lo hi :
  get_action_range ar dr sc = (lo, hi) →
  lo ≤ a ≤ hi → lo ≤ d ≤ hi → a = d →
  result (evaluate_action a d ar dr sc) =
    if decide (upper dr = "GK") then "save"
    else if decide (upper ar = "ST" ∧ upper dr = "DEF") then "foul"
    else "interception".
Proof.
  intros Hr Ha Hd Heq.
  rewrite (evaluate_action_in_range _ _ _ _ _ _ _ Hr Ha Hd).
  by rewrite decide_True.
Qed.

Lemma evaluate_action_equal_witness :
  result (evaluate_action 2 2 "st" "Def" "dribbling") = "foul".
Proof.
  apply (evaluate_action_equal 2 2 "st" "Def" "dribbling" 1 3);
    [reflexivity | lia | lia | reflexivity].
Defined.

(** C4: for in-range submitted integers with the defender's strictly
    greater, the outcome is "save" when the defender role upper-cases to GK
    and "blocked" for any other defender role. *)
Theorem evaluate_action_defender_greater a d ar dr sc lo hi :
  get_action_range ar dr sc = (lo, hi) →
  lo ≤ a ≤ hi → lo ≤ d ≤ hi → a < d →
  result (evaluate_action a d ar dr sc) =
    if decide (upper dr = "GK") then "save" else "blocked".
Proof.
  intros Hr Ha Hd Hlt.
  rewrite (evaluate_action_in_range _ _ _ _ _ _ _ Hr Ha Hd).
  rewrite decide_False by lia. by rewrite decide_False by lia.
Qed.

Lemma evaluate_action_defender_greater_witness :
  result (evaluate_action 2 5 "ST" "gK" "shooting") = "save".
Proof.
  apply (evaluate_action_defender_greater 2 5 "ST" "gK" "shooting" 1 6);
    [reflexivity | lia | lia | lia].
Defined.

(** What the code does when the attacker's integer is greater: the scenario
    is compared with "shooting" as it was passed, not lower-cased. *)
Lemma evaluate_action_attacker_greater a d ar dr sc lo hi :
  get_action_range ar dr sc = (lo, hi) →
  lo ≤ a ≤ hi → lo ≤ d ≤ hi → d < a →
  result (evaluate_action a d ar dr sc) =
    if decide (sc = "shooting" ∧ upper dr = "GK") then "goal" else "success".
Proof.
  intros Hr Ha Hd Hlt.
  rewrite (evaluate_action_in_range _ _ _ _ _ _ _ Hr Ha Hd).
  rewrite decide_False by lia. by rewrite decide_True by lia.
Qed.

(** C1: at scenario "Shooting" the range lookup lower-cases the name and
    resolves to the shooting range (1, 6), yet an in-range attacker win
    against GK is reported as "success", not "goal". *)
Theorem evaluate_action_shooting_case_sensitive :
  get_action_range "ST" "GK" "Shooting" = get_action_range "ST" "GK" "shooting" ∧
  get_action_range "ST" "GK" "Shooting" = (1, 6) ∧
  result (evaluate_action 5 2 "ST" "GK" "shooting") = "goal" ∧
  result (evaluate_action 5 2 "ST" "GK" "Shooting") = "success".
Proof. repeat split; reflexivity. Qed.

(** *** Team formation *)

Lemma count_of_step counts item role :
  count_of (count_step counts item) role =
    count_of counts role + (if eqs (upper item.2) role then 1 else 0).
Proof.
  unfold count_step, count_of, eqs.
  case_bool_decide as Hrole.
  - subst role. by rewrite lookup_insert_eq.
  - rewrite lookup_insert_ne by done. lia.
Qed.

Lemma count_of_fold roster : ∀ counts role,
  count_of (fold_left count_step roster counts) role =
    count_of counts role + occurrences roster role.
Proof.
  unfold occurrences.
  induction roster as [|item rest IH]; intros counts role; simpl.
  - lia.
  - rewrite IH, count_of_step.
    destruct (eqs (upper item.2) role); simpl length; lia.
Qed.

(** The dict built by the first loop counts the holders of each role. *)
Lemma count_positions_spec roster role :
  count_of (count_positions roster) role = occurrences roster role.
Proof.
  unfold count_positions. rewrite count_of_fold.
  unfold count_of. by rewrite lookup_empty.
Qed.

Lemma has_role_occurrences roster role :
  has_role roster role = negb (occurrences roster role <? 1).
Proof.
  unfold has_role, occurrences.
  induction roster as [|item rest IH]; simpl; [reflexivity|].
  destruct (eqs (upper item.2) role); simpl.
  - symmetry. apply negb_true_iff, Z.ltb_ge. lia.
  - exact IH.
Qed.

Lemma short_iff_missing roster role :
  (count_of (count_positions roster) role <? 1) = negb (has_role roster role).
Proof.
  by rewrite count_positions_spec, has_role_occurrences, negb_involutive.
Qed.

Lemma has_role_false roster role :
  (∀ player_id position,
     (player_id, position) ∈ roster → upper position ≠ role) →
  has_role roster role = false.
Proof.
  intros Hnone. unfold has_role.
  apply not_true_is_false. intros Hex.
  apply existsb_exists in Hex as [[player_id position] [Hin Heq]].
  apply eqs_true in Heq. apply list_elem_of_In in Hin.
  exact (Hnone _ _ Hin Heq).
Qed.

(** The formation check fails at the first role of the table that nobody
    holds, and passes when there is none. *)
Lemma validate_team_formation_first_missing roster :
  validate_team_formation roster =
    match first_missing roster with
    | Some role => (false, "Team needs at least 1 " +:+ role)
    | None => (true, "Formation is valid")
    end.
Proof.
  unfold validate_team_formation, first_missing. simpl.
  rewrite !short_iff_missing.
  destruct (has_role roster "GK"); simpl; [|reflexivity].
  destruct (has_role roster "DEF"); simpl; [|reflexivity].
  destruct (has_role roster "MF"); simpl; [|reflexivity].
  destruct (has_role roster "ST"); reflexivity.
Qed.

(** C7: a roster in which no position upper-cases to GK fails the formation
    check with a message naming GK, whatever other roles are present; GK is
    then the first missing role in the iteration order of the table. *)
Theorem validate_team_formation_no_goalkeeper roster :
  (∀ player_id position,
     (player_id, position) ∈ roster → upper position ≠ "GK") →
  validate_team_formation roster = (false, "Team needs at least 1 GK") ∧
  first_missing roster = Some "GK".
Proof.
  intros Hnone. apply has_role_false in Hnone.
  assert (Hfirst : first_missing roster = Some "GK").
  { unfold first_missing. simpl. by rewrite Hnone. }
  split; [|exact Hfirst].
  by rewrite validate_team_formation_first_missing, Hfirst.
Qed.

Lemma validate_team_formation_no_goalkeeper_witness :
  validate_team_formation [("11", "st"); ("12", "MF"); ("13", "Def")] =
    (false, "Team needs at least 1 GK") ∧
  first_missing [("11", "st"); ("12", "MF"); ("13", "Def")] = Some "GK".
Proof.
  apply (validate_team_formation_no_goalkeeper
           [("11", "st"); ("12", "MF"); ("13", "Def")]).
  intros player_id position Hin Hgk.
  repeat (apply elem_of_cons in Hin as [[= _ ->] | Hin];
          [vm_compute in Hgk; discriminate Hgk|]).
  by apply elem_of_nil in Hin.
Defined.

(** *** Success probability *)

(** Every sum of an entry (or the default) of the advantage table and an
    entry (or the default) of the modifier table is clamped into range. *)
Lemma clamp_table :
  forallb
    (fun base_prob =>
       forallb (fun scenario_mod => clamped (clamp (base_prob + scenario_mod)))
         (0.0%float :: map snd scenario_modifiers))
    (0.5%float :: map snd role_advantages) = true.
Proof. vm_compute. reflexivity. Qed.

(** C8: for every attacker role, defender role and scenario, names absent
    from the two tables included, the computed probability p satisfies
    0.1 <= p and p <= 0.9 as binary64 comparisons. *)
Theorem calculate_success_probability_clamped ar dr sc :
  (0.1 <=? calculate_success_probability ar dr sc)%float = true ∧
  (calculate_success_probability ar dr sc <=? 0.9)%float = true.
Proof.
  apply andb_true_iff.
  change (clamped (calculate_success_probability ar dr sc) = true).
  unfold calculate_success_probability.
  pose proof clamp_table as Htable.
  rewrite forallb_forall in Htable.
  specialize (Htable _ (get_default_value role_advantages
                          (upper ar, upper dr) 0.5%float)).
  rewrite forallb_forall in Htable.
  exact (Htable _ (get_default_value scenario_modifiers
                     (lower sc) 0.0%float)).
Qed.

(** Names absent from both tables give base 0.5 and modifier 0.0. *)
Lemma calculate_success_probability_unknown ar dr sc :
  (upper ar, upper dr) ∉ role_advantages.*1 →
  lower sc ∉ scenario_modifiers.*1 →
  calculate_success_probability ar dr sc = clamp (0.5 + 0.0)%float.
Proof.
  intros Hrole Hsc. unfold calculate_success_probability, clamp.
  by rewrite !get_default_absent.
Qed.

End GameLogicFacts.

(** ** The match state *)

Module MatchStateFacts.

Import PyStr MatchState.

Lemma init_possession match_id : possession (init match_id) = "A".
Proof. reflexivity. Qed.

Lemma update_score_possession self team points :
  possession (update_score self team points) = possession self.
Proof. unfold update_score. by destruct (score self !! team). Qed.

Lemma update_stats_possession self team stat_type value :
  possession (update_stats self team stat_type value) = possession self.
Proof.
  unfold update_stats.
  destruct (stats self !! team) as [team_stats|]; [|done].
  by destruct (team_stats !! stat_type).
Qed.

Lemma switch_possession_spec self :
  possession (switch_possession self) =
    if decide (possession self = "A") then "B" else "A".
Proof.
  unfold switch_possession, eqs. simpl.
  case_bool_decide; by case_decide.
Qed.

Lemma step_possession_ok self o :
  possession_ok self → possession_ok (step self o).
Proof.
  unfold possession_ok. intros Hok.
  destruct o as [team points| |team stat_type value|]; cbn [step].
  - by rewrite update_score_possession.
  - rewrite switch_possession_spec. case_decide; auto.
  - by rewrite update_stats_possession.
  - exact Hok.
Qed.

Lemma run_possession_ok ops : ∀ self,
  possession_ok self → possession_ok (run self ops).
Proof.
  induction ops as [|o rest IH]; intros self Hok; simpl; [exact Hok|].
  apply IH. by apply step_possession_ok.
Qed.

(** Reading a summary leaves the object as it was and reports its
    possession. *)
Lemma get_match_summary_possession self :
  step self GetMatchSummary = self ∧
  sum_possession (get_match_summary self) = possession self.
Proof. split; reflexivity. Qed.

(** C10: after any finite sequence of update_score, switch_possession,
    update_stats and get_match_summary calls on a freshly constructed match
    state, with any team and stat names (str) and any amounts (int), the
    possession field is "A" or "B", and switch_possession then
    turns "A" into "B" and "B" into "A"; on any state, it maps possession
    "A" to "B" and possession "B" to "A". *)
Theorem possession_is_A_or_B match_id ops :
  let self := run (init match_id) ops in
  ((possession self = "A" ∧ possession (switch_possession self) = "B") ∨
   (possession self = "B" ∧ possession (switch_possession self) = "A")) ∧
  (∀ other : MatchState.MatchState,
     possession (switch_possession (set_possession other "A")) = "B" ∧
     possession (switch_possession (set_possession other "B")) = "A").
Proof.
  intros self. split; [|by intros other].
  assert (Hok : possession_ok self).
  { apply run_possession_ok. left. apply init_possession. }
  rewrite switch_possession_spec.
  destruct Hok as [Hok|Hok]; rewrite Hok; [left|right]; by split.
Qed.

End MatchStateFacts.

(** ** The persistence layer *)

Module DatabaseFacts.

Import PyStr Database PyFacts.

Section Reads.
Context {DB : Type}.
Implicit Types (self : DatabaseManager DB) (w : World DB).

Lemma pool_acquire_uninitialized w :
  pool_acquire (DB:=DB) {| pool := None |} w =
    (Raise (AttributeError "'NoneType' object has no attribute 'acquire'"), w).
Proof. reflexivity. Qed.

(** The two guarded reads: without a pool they log and return [None]. *)
Lemma get_player_uninitialized user_id w :
  get_player {| pool := None |} user_id w =
    (Ret None, logged w "Database pool not initialized").
Proof. reflexivity. Qed.

Lemma get_match_uninitialized match_id w :
  get_match {| pool := None |} match_id w =
    (Ret None, logged w "Database pool not initialized").
Proof. reflexivity. Qed.

(** The two guarded reads never raise, whatever the pool and the
    connection do. *)
Lemma get_player_never_raises self user_id w :
  ∃ found w', get_player self user_id w = (Ret found, w').
Proof.
  unfold get_player. destruct (pool self) as [p|] eqn:Hpool.
  - unfold try_except, bind, pool_acquire. rewrite Hpool.
    destruct (acquire p) as [conn|e]; simpl; [|by eauto].
    unfold on_store.
    destruct (fetchrow conn _ _ (store w)) as [[found|e] d]; simpl; by eauto.
  - by eauto.
Qed.

Lemma get_match_never_raises self match_id w :
  ∃ found w', get_match self match_id w = (Ret found, w').
Proof.
  unfold get_match. destruct (pool self) as [p|] eqn:Hpool.
  - unfold try_except, bind, pool_acquire. rewrite Hpool.
    destruct (acquire p) as [conn|e]; simpl; [|by eauto].
    unfold on_store.
    destruct (fetchrow conn _ _ (store w)) as [[found|e] d]; simpl; by eauto.
  - by eauto.
Qed.

(** With a usable pool, a failing query of an unguarded read reaches the
    caller. *)
Lemma get_match_players_query_failure conn match_id w e d :
  fetch conn match_players_query [VStr match_id] (store w) = (Raise e, d) →
  fst (get_match_players {| pool := Some {| acquire := Ret conn |} |}
         match_id w) = Raise e.
Proof.
  intros Hfail. unfold get_match_players, bind, pool_acquire, on_store.
  simpl. by rewrite Hfail.
Qed.

(** C2: before the pool is initialized, get_active_matches,
    get_user_active_match and get_match_players raise AttributeError
    instead of returning an empty or absent result, where get_player and
    get_match log and return None. *)
Theorem unguarded_reads_raise_without_pool user_id match_id w :
  get_active_matches {| pool := None |} w =
    (Raise (AttributeError "'NoneType' object has no attribute 'acquire'"), w) ∧
  get_user_active_match {| pool := None |} user_id w =
    (Raise (AttributeError "'NoneType' object has no attribute 'acquire'"), w) ∧
  get_match_players {| pool := None |} match_id w =
    (Raise (AttributeError "'NoneType' object has no attribute 'acquire'"), w) ∧
  fst (get_player {| pool := None |} user_id w) = Ret None ∧
  fst (get_match {| pool := None |} match_id w) = Ret None.
Proof. repeat split; reflexivity. Qed.

(** *** Field-set updates *)

Lemma stats_step_skips acc item :
  has_iter item.2 = true → is_str item.2 = false → stats_step acc item = acc.
Proof.
  destruct item as [key value]. simpl. intros -> ->. reflexivity.
Qed.

Lemma stats_fold_skips stats : ∀ acc,
  Forall (λ item, has_iter item.2 = true ∧ is_str item.2 = false) stats →
  fold_left stats_step stats acc = acc.
Proof.
  induction stats as [|item rest IH]; intros acc Hall; simpl; [done|].
  apply Forall_cons in Hall as [[Hiter Hstr] Hrest].
  rewrite stats_step_skips by done. by apply IH.
Qed.

Lemma is_allowed_spec key : is_allowed key = true ↔ key ∈ allowed_fields.
Proof.
  unfold is_allowed. rewrite existsb_exists. split.
  - intros [field [Hin Heq]]. apply eqs_true in Heq. subst field.
    by apply list_elem_of_In.
  - intros Hin. exists key. split; [by apply list_elem_of_In|].
    by apply eqs_true.
Qed.

Lemma score_step_skips acc item :
  item.1 ∉ allowed_fields → score_step acc item = acc.
Proof.
  destruct item as [key value]. simpl. intros Hnot.
  destruct (is_allowed key) eqn:E; [|reflexivity].
  by apply is_allowed_spec in E.
Qed.

Lemma score_fold_skips score_data : ∀ acc,
  Forall (λ item, item.1 ∉ allowed_fields) score_data →
  fold_left score_step score_data acc = acc.
Proof.
  induction score_data as [|item rest IH]; intros acc Hall; simpl; [done|].
  apply Forall_cons in Hall as [Hitem Hrest].
  rewrite score_step_skips by done. by apply IH.
Qed.

(** C9: when every supplied player-stat value is a non-string iterable
    (in particular when none is supplied), update_player_stats returns
    false, and when no supplied score field is on the allow-list (in
    particular when none is supplied), update_match_score returns false;
    in both cases nothing is sent to the database and the world is left as
    it was, whatever the pool. *)
Theorem empty_field_set_is_refused self user_id match_id stats score_data w :
  Forall (λ item, has_iter item.2 = true ∧ is_str item.2 = false) stats →
  Forall (λ item, item.1 ∉ allowed_fields) score_data →
  update_player_stats self user_id stats w = (Ret false, w) ∧
  update_match_score self match_id score_data w = (Ret false, w).
Proof.
  intros Hstats Hscore. split.
  - unfold update_player_stats. destruct stats as [|item rest]; [done|].
    by rewrite stats_fold_skips.
  - unfold update_match_score. destruct score_data as [|item rest]; [done|].
    by rewrite score_fold_skips.
Qed.

End Reads.

Lemma empty_field_set_is_refused_witness :
  update_player_stats (manager_of recorder) 7
    [("tags", VList [VStr "mvp"]); ("history", VTuple [])] fresh_world =
    (Ret false, fresh_world) ∧
  update_match_score (manager_of recorder) "m1"
    [("status", VStr "ended"); ("host_id", VInt 4)] fresh_world =
    (Ret false, fresh_world).
Proof.
  apply (empty_field_set_is_refused (manager_of recorder) 7 "m1"
           [("tags", VList [VStr "mvp"]); ("history", VTuple [])]
           [("status", VStr "ended"); ("host_id", VInt 4)] fresh_world).
  - repeat constructor.
  - repeat (constructor;
            [apply (bool_decide_unpack _); vm_compute; exact I|]).
    constructor.
Defined.

(** By contrast, one accepted field makes each update reach the database:
    the recording store receives exactly one statement. *)
Lemma accepted_field_is_written :
  length (store (snd (update_player_stats (manager_of recorder) 7
            [("tags", VList []); ("goals", VInt 5)] fresh_world))) = 1%nat ∧
  length (store (snd (update_match_score (manager_of recorder) "m1"
            [("status", VStr "ended"); ("score_a", VInt 2)] fresh_world))) = 1%nat.
Proof. split; reflexivity. Qed.

(** On a connection whose queries fail, the guarded reads still return
    [None] and the unguarded ones raise. *)
Lemma reads_on_broken_connection :
  fst (get_player (manager_of broken) 3 fresh_world) = Ret None ∧
  fst (get_match (manager_of broken) "m1" fresh_world) = Ret None ∧
  fst (get_active_matches (manager_of broken) fresh_world) =
    Raise (PostgresError "connection is closed") ∧
  fst (get_user_active_match (manager_of broken) 3 fresh_world) =
    Raise (PostgresError "connection is closed") ∧
  fst (get_match_players (manager_of broken) "m1" fresh_world) =
    Raise (PostgresError "connection is closed").
Proof. repeat split; reflexivity. Qed.

End DatabaseFacts.

(** ** The action resolver, beyond the outcome rules *)

Module ResolverFacts.

Import PyStr GameLogic PyFacts GameLogicFacts.

(** Decide a closed proposition by evaluation. *)
Ltac by_evaluation := apply (bool_decide_unpack _); vm_compute; exact I.

(** The rejection test of [evaluate_action], as one boolean. *)
Lemma evaluate_action_rejects a d ar dr sc :
  bool_decide (result (evaluate_action a d ar dr sc) = "invalid_action") =
    negb (in_range (get_action_range ar dr sc) a
          && in_range (get_action_range ar dr sc) d).
Proof.
  unfold evaluate_action.
  destruct (in_range (get_action_range ar dr sc) a); [|reflexivity].
  destruct (in_range (get_action_range ar dr sc) d); [|reflexivity].
  cbn [negb andb]. cbv iota.
  destruct (a =? d), (a >? d), (eqs (upper dr) "GK"),
    (eqs (upper ar) "ST"), (eqs (upper dr) "DEF"), (eqs sc "shooting");
    reflexivity.
Qed.

(** X1: the range resolved for any roles and scenario is a non-empty
    interval inside 1..6, so both sides always have an accepted number:
    submitting the lower bound on both sides is never rejected. *)
Theorem resolved_range_is_playable ar dr sc :
  1 ≤ (get_action_range ar dr sc).1 ∧
  (get_action_range ar dr sc).1 ≤ (get_action_range ar dr sc).2 ∧
  (get_action_range ar dr sc).2 ≤ 6 ∧
  result (evaluate_action (get_action_range ar dr sc).1
            (get_action_range ar dr sc).1 ar dr sc) ≠ "invalid_action".
Proof.
  pose proof (get_action_range_bounds ar dr sc) as (H1 & H2 & H3).
  cbv zeta in H1, H2, H3. repeat split; try assumption.
  intros Hbad.
  pose proof (evaluate_action_rejects (get_action_range ar dr sc).1
                (get_action_range ar dr sc).1 ar dr sc) as Hb.
  rewrite bool_decide_eq_true_2 in Hb by exact Hbad.
  destruct (get_action_range ar dr sc) as [lo hi]. simpl in *.
  rewrite (in_range_yes lo hi lo) in Hb by lia. discriminate Hb.
Qed.

(** X2: an action is rejected exactly when one of the two integers is
    outside the resolved range; in-range submissions are never rejected. *)
Theorem rejected_iff_out_of_range a d ar dr sc lo hi :
  get_action_range ar dr sc = (lo, hi) →
  result (evaluate_action a d ar dr sc) = "invalid_action" ↔
    ¬ (lo ≤ a ≤ hi) ∨ ¬ (lo ≤ d ≤ hi).
Proof.
  intros Hr.
  rewrite <- (bool_decide_eq_true (_ = "invalid_action")).
  rewrite evaluate_action_rejects, Hr, negb_true_iff, andb_false_iff.
  rewrite <- !not_true_iff_false, !in_range_spec. reflexivity.
Qed.

Lemma rejected_iff_out_of_range_witness :
  result (evaluate_action 7 2 "ST" "GK" "shooting") = "invalid_action" ↔
    ¬ (1 ≤ 7 ≤ 6) ∨ ¬ (1 ≤ 2 ≤ 6).
Proof.
  apply (rejected_iff_out_of_range 7 2 "ST" "GK" "shooting" 1 6).
  reflexivity.
Defined.

(** X3: whatever the inputs, the result is one of the seven outcomes, the
    success flag is set exactly for foul, goal and success, and the
    next_action key is missing exactly for invalid_action. *)
Theorem outcome_flag_consistency a d ar dr sc :
  result (evaluate_action a d ar dr sc) ∈ outcomes ∧
  (success (evaluate_action a d ar dr sc) = true ↔
     result (evaluate_action a d ar dr sc) ∈ ["foul"; "goal"; "success"]) ∧
  (next_action (evaluate_action a d ar dr sc) = None ↔
     result (evaluate_action a d ar dr sc) = "invalid_action").
Proof.
  unfold evaluate_action.
  destruct (in_range (get_action_range ar dr sc) a);
    [|cbn [negb]; cbv iota; by_evaluation].
  destruct (in_range (get_action_range ar dr sc) d);
    [|cbn [negb]; cbv iota; by_evaluation].
  cbn [negb]. cbv iota.
  destruct (a =? d), (a >? d), (eqs (upper dr) "GK"),
    (eqs (upper ar) "ST"), (eqs (upper dr) "DEF"), (eqs sc "shooting");
    cbn [andb]; cbv iota; by_evaluation.
Qed.

(** X4: only the upper-cased roles matter to the outcome: two spellings of
    the roles that upper-case alike give the same result, success flag and
    next action. *)
Theorem outcome_ignores_role_case a d ar ar' dr dr' sc :
  upper ar = upper ar' → upper dr = upper dr' →
  result (evaluate_action a d ar dr sc) =
    result (evaluate_action a d ar' dr' sc) ∧
  success (evaluate_action a d ar dr sc) =
    success (evaluate_action a d ar' dr' sc) ∧
  next_action (evaluate_action a d ar dr sc) =
    next_action (evaluate_action a d ar' dr' sc).
Proof.
  intros Ha Hd. unfold evaluate_action, get_action_range.
  rewrite Ha, Hd.
  set (r := PyDict.get_default ranges _ _).
  destruct (in_range r a); [|by cbn].
  destruct (in_range r d); [|by cbn].
  cbn [negb]. cbv iota. done.
Qed.

Lemma outcome_ignores_role_case_witness :
  result (evaluate_action 3 3 "st" "Def" "dribbling") =
    result (evaluate_action 3 3 "ST" "DEF" "dribbling") ∧
  success (evaluate_action 3 3 "st" "Def" "dribbling") =
    success (evaluate_action 3 3 "ST" "DEF" "dribbling") ∧
  next_action (evaluate_action 3 3 "st" "Def" "dribbling") =
    next_action (evaluate_action 3 3 "ST" "DEF" "dribbling").
Proof.
  apply (outcome_ignores_role_case 3 3 "st" "ST" "Def" "DEF" "dribbling");
    reflexivity.
Defined.

(** X5: a goal is reported exactly when both integers are in the resolved
    range, the attacker's is strictly greater, the scenario is literally
    "shooting" and the defender role upper-cases to GK. *)
Theorem goal_iff a d ar dr sc :
  result (evaluate_action a d ar dr sc) = "goal" ↔
    in_range (get_action_range ar dr sc) a = true ∧
    in_range (get_action_range ar dr sc) d = true ∧
    d < a ∧ sc = "shooting" ∧ upper dr = "GK".
Proof.
  unfold evaluate_action.
  destruct (in_range (get_action_range ar dr sc) a);
    [|cbn; split; [discriminate|intros [? _]; discriminate]].
  destruct (in_range (get_action_range ar dr sc) d);
    [|cbn; split; [discriminate|intros (_ & ? & _); discriminate]].
  cbn [negb]. cbv iota. unfold eqs.
  destruct (Z.eqb_spec a d) as [->|Hne].
  - repeat case_bool_decide; cbn [andb result];
      (split; [discriminate|intros (_ & _ & ? & _); lia]).
  - destruct (Z.gtb_spec a d) as [Hgt|Hle].
    + repeat case_bool_decide; cbn [andb result];
        (split; [try discriminate; intros _; repeat split; (done || lia)
                |intros (_ & _ & _ & ? & ?); done]).
    + repeat case_bool_decide; cbn [andb result];
        (split; [discriminate|intros (_ & _ & ? & _); lia]).
Qed.

(** X6: against a defender whose role upper-cases to GK the outcome is
    never blocked, interception or foul. *)
Theorem goalkeeper_outcomes a d ar dr sc :
  upper dr = "GK" →
  result (evaluate_action a d ar dr sc)
    ∈ ["invalid_action"; "save"; "goal"; "success"].
Proof.
  intros Hgk. unfold evaluate_action. rewrite Hgk.
  destruct (in_range (get_action_range ar dr sc) a);
    [|cbn [negb]; cbv iota; by_evaluation].
  destruct (in_range (get_action_range ar dr sc) d);
    [|cbn [negb]; cbv iota; by_evaluation].
  cbn [negb]. cbv iota.
  destruct (a =? d), (a >? d), (eqs sc "shooting");
    cbn; by_evaluation.
Qed.

Lemma goalkeeper_outcomes_witness :
  result (evaluate_action 4 4 "MF" "gk" "long_shot")
    ∈ ["invalid_action"; "save"; "goal"; "success"].
Proof.
  apply (goalkeeper_outcomes 4 4 "MF" "gk" "long_shot"). reflexivity.
Defined.

(** A scenario whose lower-cased name is not a key of the description
    table gets the description of "default". *)
Lemma unknown_scenario_description scenario :
  lower scenario ∉ descriptions.*1 →
  get_scenario_description scenario = "General gameplay situation".
Proof.
  intros Habsent. unfold get_scenario_description.
  by rewrite get_default_absent.
Qed.

Lemma unknown_scenario_description_witness :
  get_scenario_description "Kickoff" = "General gameplay situation".
Proof.
  apply (unknown_scenario_description "Kickoff"). by_evaluation.
Defined.

End ResolverFacts.

(** ** The success probability, beyond the clamp *)

Module ProbabilityFacts.

Import PyStr GameLogic PyFacts GameLogicFacts.

(** With the penalty modifier every base advantage overshoots the cap. *)
Lemma penalty_table :
  Forall (fun base_prob => clamp (base_prob + 0.8) = 0.9%float)
    (0.5%float :: map snd role_advantages).
Proof. repeat constructor. Qed.

(** X7: in a penalty scenario (in any letter case) the probability is the
    cap 0.9 for every pair of roles. *)
Theorem penalty_probability_is_cap ar dr sc :
  lower sc = "penalty" →
  calculate_success_probability ar dr sc = 0.9%float.
Proof.
  intros Hsc. unfold calculate_success_probability. rewrite Hsc.
  change (PyDict.get_default scenario_modifiers "penalty" 0.0%float)
    with 0.8%float.
  pose proof penalty_table as Htable. rewrite Forall_forall in Htable.
  apply Htable, list_elem_of_In, get_default_value.
Qed.

Lemma penalty_probability_is_cap_witness :
  calculate_success_probability "mf" "gk" "Penalty" = 0.9%float.
Proof.
  apply (penalty_probability_is_cap "mf" "gk" "Penalty"). reflexivity.
Defined.

(** Every sum of the two tables stays strictly above the floor. *)
Lemma floor_table :
  forallb
    (fun base_prob =>
       forallb
         (fun scenario_mod =>
            (0.1 <? base_prob + scenario_mod)%float
            && (0.1 <? clamp (base_prob + scenario_mod))%float)
         (0.0%float :: map snd scenario_modifiers))
    (0.5%float :: map snd role_advantages) = true.
Proof. vm_compute. reflexivity. Qed.

(** X8: the floor 0.1 of the clamp is never what is returned: for every
    roles and scenario the probability is strictly greater than 0.1. *)
Theorem probability_above_floor ar dr sc :
  (0.1 <? calculate_success_probability ar dr sc)%float = true.
Proof.
  unfold calculate_success_probability.
  pose proof floor_table as Htable.
  rewrite forallb_forall in Htable.
  specialize (Htable _ (get_default_value role_advantages
                          (upper ar, upper dr) 0.5%float)).
  rewrite forallb_forall in Htable.
  specialize (Htable _ (get_default_value scenario_modifiers
                          (lower sc) 0.0%float)).
  apply andb_true_iff in Htable as [_ Hclamp]. exact Hclamp.
Qed.

(** A role pair missing from the advantage table together with a
    scenario missing from the modifier table gives exactly 0.5. *)
Lemma unknown_probability_is_half ar dr sc :
  (upper ar, upper dr) ∉ role_advantages.*1 →
  lower sc ∉ scenario_modifiers.*1 →
  calculate_success_probability ar dr sc = 0.5%float.
Proof.
  intros Hrole Hsc. unfold calculate_success_probability.
  by rewrite !get_default_absent.
Qed.

Lemma unknown_probability_is_half_witness :
  calculate_success_probability "GK" "st" "Kickoff" = 0.5%float.
Proof.
  apply (unknown_probability_is_half "GK" "st" "Kickoff");
    apply (bool_decide_unpack _); vm_compute; exact I.
Defined.

End ProbabilityFacts.

(** ** Team formation, beyond the goalkeeper case *)

Module FormationFacts.

Import PyStr GameLogic PyFacts GameLogicFacts.

Lemma has_role_true roster role :
  has_role roster role = true ↔
    ∃ player_id position,
      (player_id, position) ∈ roster ∧ upper position = role.
Proof.
  unfold has_role. rewrite existsb_exists. split.
  - intros [[player_id position] [Hin Heq]].
    exists player_id, position. split.
    + by apply list_elem_of_In.
    + by apply eqs_true in Heq.
  - intros (player_id & position & Hin & Heq).
    exists (player_id, position). split.
    + by apply list_elem_of_In.
    + by apply eqs_true.
Qed.

Lemma has_role_perm roster roster' role :
  roster ≡ₚ roster' → has_role roster role = has_role roster' role.
Proof.
  intros Hperm. apply eq_true_iff_eq. rewrite !has_role_true.
  by setoid_rewrite Hperm.
Qed.

Lemma has_role_app roster more role :
  has_role (roster ++ more)%list role =
    has_role roster role || has_role more role.
Proof. unfold has_role. apply existsb_app. Qed.

Lemma valid_iff_has_all roster :
  (validate_team_formation roster).1 = true ↔
    has_role roster "GK" = true ∧ has_role roster "DEF" = true ∧
    has_role roster "MF" = true ∧ has_role roster "ST" = true.
Proof.
  rewrite validate_team_formation_first_missing.
  unfold first_missing. simpl.
  destruct (has_role roster "GK"), (has_role roster "DEF"),
    (has_role roster "MF"), (has_role roster "ST"); simpl; intuition.
Qed.

(** X9: the formation check passes exactly when each of GK, DEF, MF and ST
    is the upper-cased position of at least one player. *)
Theorem formation_valid_iff_all_roles roster :
  (validate_team_formation roster).1 = true ↔
    ∀ role, role ∈ ["GK"; "DEF"; "MF"; "ST"] →
      ∃ player_id position,
        (player_id, position) ∈ roster ∧ upper position = role.
Proof.
  rewrite valid_iff_has_all, !has_role_true. split.
  - intros (Hgk & Hdef & Hmf & Hst) role Hrole.
    repeat (apply elem_of_cons in Hrole as [-> | Hrole]; [assumption|]).
    by apply elem_of_nil in Hrole.
  - intros Hall. repeat split; apply Hall; set_solver.
Qed.

(** X10: the verdict and the message do not depend on the order in which
    the roster lists its players. *)
Theorem formation_ignores_roster_order roster roster' :
  roster ≡ₚ roster' →
  validate_team_formation roster = validate_team_formation roster'.
Proof.
  intros Hperm. rewrite !validate_team_formation_first_missing.
  unfold first_missing. simpl.
  by rewrite !(has_role_perm roster roster' _ Hperm).
Qed.

Lemma formation_ignores_roster_order_witness :
  validate_team_formation [("1", "gk"); ("2", "st"); ("3", "mf")] =
    validate_team_formation [("3", "mf"); ("1", "gk"); ("2", "st")].
Proof.
  apply (formation_ignores_roster_order
           [("1", "gk"); ("2", "st"); ("3", "mf")]
           [("3", "mf"); ("1", "gk"); ("2", "st")]).
  apply (Permutation_cons_app [("3", "mf")] [("2", "st")]).
  apply perm_swap.
Defined.

(** X11: whichever role is the first, in the order GK, DEF, MF, ST, that
    no player holds, the check fails with the message naming that role;
    when there is none, it passes. *)
Theorem formation_names_first_missing roster :
  validate_team_formation roster =
    match first_missing roster with
    | Some role => (false, "Team needs at least 1 " +:+ role)
    | None => (true, "Formation is valid")
    end.
Proof. apply validate_team_formation_first_missing. Qed.

(** Adding players to a roster that passes the check cannot make it
    fail. *)
Lemma formation_stays_valid roster more :
  (validate_team_formation roster).1 = true →
  (validate_team_formation (roster ++ more)%list).1 = true.
Proof.
  rewrite !valid_iff_has_all, !has_role_app.
  intros (-> & -> & -> & ->). done.
Qed.

Lemma formation_stays_valid_witness :
  (validate_team_formation
     ([("1", "gk"); ("2", "st"); ("3", "mf"); ("4", "def")]
        ++ [("5", "coach")])%list).1 = true.
Proof.
  apply (formation_stays_valid
           [("1", "gk"); ("2", "st"); ("3", "mf"); ("4", "def")]
           [("5", "coach")]).
  reflexivity.
Defined.

End FormationFacts.

(** ** The match state as a ledger *)

Module LedgerFacts.

Import PyStr MatchState PyFacts MatchStateFacts.

(** Refute membership in a list of literals all known to differ. *)
Ltac not_listed :=
  let Hin := fresh "Hin" in
  intros Hin;
  repeat (apply elem_of_cons in Hin as [Hin|Hin]; [congruence|]);
  by apply elem_of_nil in Hin.

Lemma add_zero_fmap (x : option Z) : (fun v => v + 0) <$> x = x.
Proof. destruct x as [v|]; simpl; [f_equal; lia|reflexivity]. Qed.

Lemma update_score_lookup self team' points team :
  score (update_score self team' points) !! team =
    (fun v => v + (if eqs team' team then points else 0))
      <$> score self !! team.
Proof.
  unfold update_score, eqs.
  destruct (score self !! team') as [old|] eqn:Hold; case_bool_decide.
  - subst team'. simpl. rewrite lookup_insert_eq, Hold. reflexivity.
  - simpl. rewrite lookup_insert_ne by done. by rewrite add_zero_fmap.
  - subst team'. rewrite Hold. reflexivity.
  - by rewrite add_zero_fmap.
Qed.

Lemma update_stats_score self team stat_type value :
  score (update_stats self team stat_type value) = score self.
Proof.
  unfold update_stats.
  destruct (stats self !! team) as [team_stats|]; [|done].
  by destruct (team_stats !! stat_type).
Qed.

Lemma score_run ops : ∀ self team,
  score (run self ops) !! team =
    (fun v => v + points_for team ops) <$> score self !! team.
Proof.
  unfold run.
  induction ops as [|o rest IH]; intros self team; cbn [fold_left points_for].
  - by rewrite add_zero_fmap.
  - rewrite IH.
    destruct o as [team' points| |team' stat_type value|]; cbn [step].
    + rewrite update_score_lookup.
      destruct (score self !! team) as [v|]; simpl; [f_equal; lia|done].
    + reflexivity.
    + by rewrite update_stats_score.
    + reflexivity.
Qed.

Lemma init_score match_id team :
  score (init match_id) !! team =
    if bool_decide (team ∈ ["A"; "B"]) then Some 0 else None.
Proof.
  destruct (decide (team = "A")) as [->|HA]; [reflexivity|].
  destruct (decide (team = "B")) as [->|HB]; [reflexivity|].
  rewrite bool_decide_eq_false_2 by not_listed.
  simpl. by rewrite !lookup_insert_ne, lookup_empty.
Qed.

(** X12: after any sequence of calls on a fresh match state, the score of
    team A (resp. B) is the sum of the points passed to update_score for
    that team, and no other key ever enters the score dict: update_score
    with an unknown team changes nothing. *)
Theorem score_is_sum_of_points match_id ops team :
  score (run (init match_id) ops) !! team =
    if bool_decide (team ∈ ["A"; "B"]) then Some (points_for team ops)
    else None.
Proof.
  rewrite score_run, init_score. by case_bool_decide.
Qed.

Lemma update_stats_lookup self team' stat_type' value team stat_type :
  stat_of (update_stats self team' stat_type' value) team stat_type =
    (fun v =>
       v + (if eqs team' team && eqs stat_type' stat_type
            then value else 0))
      <$> stat_of self team stat_type.
Proof.
  unfold update_stats, stat_of, eqs.
  destruct (stats self !! team') as [team_stats|] eqn:Hteam.
  - destruct (team_stats !! stat_type') as [old|] eqn:Hold.
    + simpl. case_bool_decide as Ht.
      * subst team'. rewrite lookup_insert_eq, Hteam. simpl.
        case_bool_decide as Hs.
        -- subst stat_type'. by rewrite lookup_insert_eq, Hold.
        -- rewrite lookup_insert_ne by done. by rewrite add_zero_fmap.
      * rewrite lookup_insert_ne by done. by rewrite add_zero_fmap.
    + case_bool_decide as Ht; [|by rewrite add_zero_fmap].
      subst team'. rewrite Hteam. simpl.
      case_bool_decide as Hs; [|by rewrite add_zero_fmap].
      subst stat_type'. by rewrite Hold.
  - case_bool_decide as Ht; [|by rewrite add_zero_fmap].
    subst team'. by rewrite Hteam.
Qed.

Lemma update_score_stats self team points :
  stats (update_score self team points) = stats self.
Proof. unfold update_score. by destruct (score self !! team). Qed.

Lemma stat_run ops : ∀ self team stat_type,
  stat_of (run self ops) team stat_type =
    (fun v => v + tally team stat_type ops) <$> stat_of self team stat_type.
Proof.
  unfold run.
  induction ops as [|o rest IH]; intros self team stat_type;
    cbn [fold_left tally].
  - by rewrite add_zero_fmap.
  - rewrite IH.
    destruct o as [team' points| |team' stat_type' value|]; cbn [step].
    + unfold stat_of. by rewrite update_score_stats.
    + reflexivity.
    + rewrite update_stats_lookup.
      destruct (stat_of self team stat_type) as [v|]; simpl;
        [f_equal; lia|done].
    + reflexivity.
Qed.

Lemma zero_stats_lookup stat_type :
  zero_stats !! stat_type =
    if bool_decide (stat_type ∈ ["shots"; "saves"; "fouls"; "corners"])
    then Some 0 else None.
Proof.
  destruct (decide (stat_type = "shots")) as [->|H1]; [reflexivity|].
  destruct (decide (stat_type = "saves")) as [->|H2]; [reflexivity|].
  destruct (decide (stat_type = "fouls")) as [->|H3]; [reflexivity|].
  destruct (decide (stat_type = "corners")) as [->|H4]; [reflexivity|].
  rewrite bool_decide_eq_false_2 by not_listed.
  unfold zero_stats. by rewrite !lookup_insert_ne, lookup_empty.
Qed.

Lemma init_stat match_id team stat_type :
  stat_of (init match_id) team stat_type =
    if bool_decide (team ∈ ["A"; "B"]) then
      if bool_decide (stat_type ∈ ["shots"; "saves"; "fouls"; "corners"])
      then Some 0 else None
    else None.
Proof.
  unfold stat_of.
  destruct (decide (team = "A")) as [->|HA];
    [apply zero_stats_lookup|].
  destruct (decide (team = "B")) as [->|HB];
    [apply zero_stats_lookup|].
  rewrite bool_decide_eq_false_2 by not_listed.
  simpl. by rewrite !lookup_insert_ne, lookup_empty.
Qed.

(** X13: after any sequence of calls on a fresh match state, each of the
    four counters of team A and team B is the sum of the values passed to
    update_stats for that team and counter; a call naming another team or
    another counter changes nothing and creates no entry. *)
Theorem stat_is_sum_of_values match_id ops team stat_type :
  stat_of (run (init match_id) ops) team stat_type =
    if bool_decide (team ∈ ["A"; "B"]) then
      if bool_decide (stat_type ∈ ["shots"; "saves"; "fouls"; "corners"])
      then Some (tally team stat_type ops) else None
    else None.
Proof.
  rewrite stat_run, init_stat. by repeat case_bool_decide.
Qed.

Lemma step_frame self o :
  match_id (step self o) = match_id self ∧
  current_scenario (step self o) = current_scenario self ∧
  turn_count (step self o) = turn_count self ∧
  match_time (step self o) = match_time self ∧
  status (step self o) = status self.
Proof.
  destruct o as [team points| |team stat_type value|]; cbn [step].
  - unfold update_score. by destruct (score self !! team).
  - done.
  - unfold update_stats.
    destruct (stats self !! team) as [team_stats|]; [|done].
    by destruct (team_stats !! stat_type).
  - done.
Qed.

(** X14: none of the four methods touches the match id, the scenario tag,
    the turn counter, the elapsed minutes or the status: after any sequence
    of calls on a fresh match state they still hold the values set by the
    constructor. *)
Theorem bookkeeping_fields_never_change mid ops :
  match_id (run (init mid) ops) = mid ∧
  current_scenario (run (init mid) ops) = "kickoff" ∧
  turn_count (run (init mid) ops) = 0 ∧
  match_time (run (init mid) ops) = 0 ∧
  status (run (init mid) ops) = "active".
Proof.
  change (match_id (run (init mid) ops) = match_id (init mid) ∧
          current_scenario (run (init mid) ops) =
            current_scenario (init mid) ∧
          turn_count (run (init mid) ops) = turn_count (init mid) ∧
          match_time (run (init mid) ops) = match_time (init mid) ∧
          status (run (init mid) ops) = status (init mid)).
  generalize (init mid) as self. unfold run.
  induction ops as [|o rest IH]; intros self; [done|].
  cbn [fold_left].
  destruct (IH (step self o)) as (-> & -> & -> & -> & ->).
  apply step_frame.
Qed.

Lemma possession_run ops : ∀ self,
  possession_ok self →
  possession (run self ops) =
    if Nat.even (switches ops) then possession self
    else if decide (possession self = "A") then "B" else "A".
Proof.
  unfold run.
  induction ops as [|o rest IH]; intros self Hok; [reflexivity|].
  cbn [fold_left].
  rewrite IH by (by apply step_possession_ok).
  destruct o as [team points| |team stat_type value|]; cbn [step switches].
  - by rewrite update_score_possession.
  - rewrite Nat.even_succ, <- Nat.negb_even, switch_possession_spec.
    destruct Hok as [-> | ->], (Nat.even (switches rest)); reflexivity.
  - by rewrite update_stats_possession.
  - reflexivity.
Qed.

(** X15: after any sequence of calls on a fresh match state, team A has
    possession when switch_possession was called an even number of times
    and team B when it was called an odd number of times; the other calls
    do not matter. *)
Theorem possession_follows_switch_parity mid ops :
  possession (run (init mid) ops) =
    if Nat.even (switches ops) then "A" else "B".
Proof.
  rewrite possession_run by (by left). reflexivity.
Qed.

End LedgerFacts.

(** ** The match state with shared dict objects *)

Module ObjectFacts.

Import PyStr MatchObjects PyFacts.

Lemma alloc_fresh h d : (alloc h d).1 !! (alloc h d).2 = Some d ∧
  h !! (alloc h d).2 = None ∧
  ∀ r, is_Some (h !! r) → (alloc h d).1 !! r = h !! r.
Proof.
  unfold alloc. simpl.
  assert (Hfresh : h !! fresh (dom h) = None).
  { apply not_elem_of_dom. apply is_fresh. }
  split; [apply lookup_insert_eq|]. split; [exact Hfresh|].
  intros r [v Hv]. apply lookup_insert_ne. intros <-. congruence.
Qed.

(** The constructor allocates two distinct dicts of zeroed counters. *)
Lemma init_spec mid h :
  ∃ h' ra rb,
    init mid h =
      (h', {| match_id := mid;
              score := <["A" := 0]> (<["B" := 0]> ∅);
              possession := "A";
              current_scenario := "kickoff";
              turn_count := 0;
              match_time := 0;
              status := "active";
              stats := <["A" := ra]> (<["B" := rb]> ∅) |}) ∧
    ra ≠ rb ∧
    h' !! ra = Some MatchState.zero_stats ∧
    h' !! rb = Some MatchState.zero_stats.
Proof.
  unfold init.
  pose proof (alloc_fresh h MatchState.zero_stats) as (Ha & Hna & Hka).
  destruct (alloc h MatchState.zero_stats) as [h1 ra].
  pose proof (alloc_fresh h1 MatchState.zero_stats) as (Hb & Hnb & Hkb).
  destruct (alloc h1 MatchState.zero_stats) as [h2 rb].
  cbn [fst snd] in *.
  exists h2, ra, rb. split; [reflexivity|].
  split; [intros ->; congruence|].
  split; [|exact Hb]. rewrite Hkb by eauto. exact Ha.
Qed.

Lemma two_teams_lookup (ra rb : ref) team r :
  (<["A" := ra]> (<["B" := rb]> (∅ : gmap string ref))) !! team = Some r →
  (team = "A" ∧ r = ra) ∨ (team = "B" ∧ r = rb).
Proof.
  intros Hr.
  apply lookup_insert_Some in Hr as [[<- <-]|[_ Hr]]; [by left|].
  apply lookup_insert_Some in Hr as [[<- <-]|[_ Hr]]; [by right|].
  by rewrite lookup_empty in Hr.
Qed.

Lemma init_well_formed mid h : well_formed (init mid h).
Proof.
  destruct (init_spec mid h) as (h' & ra & rb & -> & Hne & Ha & Hb).
  split; cbn [fst snd stats].
  - intros team r Hr.
    apply two_teams_lookup in Hr as [[_ ->]|[_ ->]]; eauto.
  - intros team team' r Hr Hr'.
    apply two_teams_lookup in Hr as [[-> ->]|[-> ->]];
      apply two_teams_lookup in Hr' as [[-> Heq]|[-> Heq]];
      congruence.
Qed.

Lemma init_view mid h : view (init mid h) = MatchState.init mid.
Proof.
  destruct (init_spec mid h) as (h' & ra & rb & -> & Hne & Ha & Hb).
  unfold view, MatchState.init. cbn [fst snd]. simpl. f_equal.
  rewrite !fmap_insert, fmap_empty. unfold deref.
  by rewrite Ha, Hb.
Qed.

Lemma deref_allocated (h : heap) r d : h !! r = Some d → deref h r = d.
Proof. intros H. unfold deref. by rewrite H. Qed.

(** Writing into the dict of one team leaves the dicts of the others as
    they were. *)
Lemma update_stats_view x team stat_type value :
  well_formed x →
  view (update_stats x.1 x.2 team stat_type value, x.2) =
    MatchState.update_stats (view x) team stat_type value.
Proof.
  destruct x as [h self]. intros [Halloc Hinj]. cbn [fst snd] in *.
  unfold update_stats, MatchState.update_stats, view.
  cbn [fst snd MatchState.stats]. rewrite lookup_fmap.
  destruct (stats self !! team) as [r|] eqn:Hr; [|reflexivity].
  change (deref h <$> Some r) with (Some (deref h r)). cbv iota.
  destruct (Halloc _ _ Hr) as [team_stats Hts].
  rewrite (deref_allocated _ _ _ Hts), Hts.
  destruct (team_stats !! stat_type) as [old|]; [|reflexivity].
  unfold MatchState.set_stats. cbn -[deref]. f_equal.
  apply map_eq. intros k. rewrite lookup_fmap.
  destruct (decide (k = team)) as [->|Hk].
  - rewrite Hr, lookup_insert_eq.
    change (deref ?h' <$> Some r) with (Some (deref h' r)).
    f_equal. apply deref_allocated, lookup_insert_eq.
  - rewrite lookup_insert_ne by done. rewrite lookup_fmap.
    destruct (stats self !! k) as [r'|] eqn:Hr'; [|reflexivity].
    simpl. unfold deref, heap, ref in *. rewrite lookup_insert_ne; [done|].
    intros <-. apply Hk. by apply (Hinj k team r).
Qed.

Lemma update_stats_well_formed x team stat_type value :
  well_formed x →
  well_formed (update_stats x.1 x.2 team stat_type value, x.2).
Proof.
  destruct x as [h self]. intros [Halloc Hinj]. split; [|exact Hinj].
  simpl in *. intros team' r' Hr'. unfold update_stats.
  destruct (stats self !! team) as [r|]; [|by eauto].
  destruct (h !! r) as [team_stats|]; [|by eauto].
  destruct (team_stats !! stat_type); [|by eauto].
  unfold heap, ref in *.
  destruct (decide (r = r')) as [->|Hne].
  - rewrite lookup_insert_eq. eauto.
  - rewrite lookup_insert_ne by done. eauto.
Qed.

Lemma step_simulates x o :
  well_formed x →
  view (step x o) = MatchState.step (view x) o ∧
  well_formed (step x o) ∧
  stats (step x o).2 = stats x.2.
Proof.
  intros Hwf. destruct o as [team points| |team stat_type value|].
  - destruct x as [h self]. simpl.
    unfold update_score, MatchState.update_score. simpl.
    destruct (score self !! team); done.
  - destruct x as [h self]. done.
  - rewrite (surjective_pairing x) at 1 3 4. cbn [step].
    split; [by apply update_stats_view|].
    split; [by apply update_stats_well_formed|done].
  - destruct x as [h self]. done.
Qed.

Lemma run_simulates ops : ∀ x,
  well_formed x →
  view (run x ops) = MatchState.run (view x) ops ∧
  well_formed (run x ops) ∧
  stats (run x ops).2 = stats x.2.
Proof.
  unfold run, MatchState.run.
  induction ops as [|o rest IH]; intros x Hwf; [done|].
  cbn [fold_left].
  destruct (step_simulates x o Hwf) as (Hview & Hwf' & Hrefs).
  destruct (IH _ Hwf') as (IHview & IHwf & IHrefs).
  rewrite IHview, Hview, IHrefs, Hrefs. done.
Qed.

(** X16: the match state whose per-team dicts are shared objects in a heap
    behaves, call for call, as the state whose dicts are plain values:
    after any sequence of calls on a fresh object, replacing each reference
    by the dict it points to gives the state the value model computes. *)
Theorem objects_refine_values mid h ops :
  view (run (init mid h) ops) =
    MatchState.run (MatchState.init mid) ops.
Proof.
  destruct (run_simulates ops _ (init_well_formed mid h)) as (-> & _ & _).
  by rewrite init_view.
Qed.

Lemma read_stat_view x summary team stat_type :
  well_formed x → snap_stats summary = stats x.2 →
  read_stat x.1 summary team stat_type =
    MatchState.stat_of (view x) team stat_type.
Proof.
  intros [Halloc _] Hrefs. unfold read_stat, MatchState.stat_of, view.
  simpl. rewrite Hrefs, lookup_fmap.
  destruct (stats x.2 !! team) as [r|] eqn:Hr; simpl; [|done].
  destruct (Halloc _ _ Hr) as [team_stats Hts].
  unfold deref. by rewrite Hts.
Qed.

(** X17: a summary is not a snapshot of the counters.  Take a summary of a
    match state reached by any calls, then make further calls: each counter
    read through the old summary has moved by the sum of the values those
    further calls passed to update_stats for that team and counter. *)
Theorem summary_stats_follow_later_updates mid h before after team stat_type :
  let x := run (init mid h) before in
  let summary := get_match_summary x.2 in
  read_stat (run x after).1 summary team stat_type =
    (fun v => v + MatchState.tally team stat_type after)
      <$> read_stat x.1 summary team stat_type.
Proof.
  intros x summary.
  destruct (run_simulates before _ (init_well_formed mid h))
    as (_ & Hwf & _). fold x in Hwf.
  destruct (run_simulates after x Hwf) as (Hview & Hwf' & Hrefs).
  rewrite (read_stat_view (run x after)) by done.
  rewrite (read_stat_view x) by done.
  rewrite Hview. apply LedgerFacts.stat_run.
Qed.

(** The same on one run: two shots recorded after the summary was taken
    show up in it. *)
Lemma summary_sees_later_shots :
  let x := init "m1" ∅ in
  let summary := get_match_summary x.2 in
  read_stat x.1 summary "A" "shots" = Some 0 ∧
  read_stat (run x [MatchState.UpdateStats "A" "shots" 2]).1
    summary "A" "shots" = Some 2.
Proof. split; vm_compute; reflexivity. Qed.

End ObjectFacts.

(** ** The persistence layer: how statements are built and sent *)

Module StatementFacts.

Import PyStr Database PyFacts DatabaseFacts.

Lemma stats_fold_closed stats : ∀ set_clauses values param_count,
  fold_left stats_step stats (set_clauses, values, param_count) =
    ((set_clauses ++
        numbered_clauses param_count (List.filter kept_stat stats).*1)%list,
     (values ++ (List.filter kept_stat stats).*2)%list,
     param_count + Z.of_nat (length (List.filter kept_stat stats))).
Proof.
  induction stats as [|[key value] rest IH]; intros cs vs n.
  - simpl. rewrite !app_nil_r. do 2 f_equal. lia.
  - cbn [fold_left List.filter].
    assert (Hstep : stats_step (cs, vs, n) (key, value) =
                    if kept_stat (key, value)
                    then add_clause (cs, vs, n) key value else (cs, vs, n)).
    { unfold stats_step, kept_stat. cbn [snd].
      by destruct (has_iter value && negb (is_str value)). }
    rewrite Hstep. destruct (kept_stat (key, value)).
    + cbn [add_clause]. rewrite IH. cbn [fmap list_fmap fst snd].
      cbn [numbered_clauses length].
      rewrite <- !app_assoc. cbn [app]. f_equal. lia.
    + apply IH.
Qed.

Lemma score_fold_closed score_data : ∀ set_clauses values param_count,
  fold_left score_step score_data (set_clauses, values, param_count) =
    ((set_clauses ++
        numbered_clauses param_count
          (List.filter kept_score score_data).*1)%list,
     (values ++ (List.filter kept_score score_data).*2)%list,
     param_count + Z.of_nat (length (List.filter kept_score score_data))).
Proof.
  induction score_data as [|[key value] rest IH]; intros cs vs n.
  - simpl. rewrite !app_nil_r. do 2 f_equal. lia.
  - cbn [fold_left List.filter].
    assert (Hstep : score_step (cs, vs, n) (key, value) =
                    if kept_score (key, value)
                    then add_clause (cs, vs, n) key value else (cs, vs, n)).
    { reflexivity. }
    rewrite Hstep. destruct (kept_score (key, value)).
    + cbn [add_clause]. rewrite IH. cbn [fmap list_fmap fst snd].
      cbn [numbered_clauses length].
      rewrite <- !app_assoc. cbn [app]. f_equal. lia.
    + apply IH.
Qed.

Section Statements.
Context {DB : Type}.
Implicit Types (self : DatabaseManager DB) (w : World DB).

Lemma kept_stat_idem stats :
  List.filter kept_stat (List.filter kept_stat stats) =
    List.filter kept_stat stats.
Proof.
  apply forallb_filter_id, forallb_forall.
  intros item Hin. by apply filter_In in Hin as [_ ?].
Qed.

Lemma kept_score_idem score_data :
  List.filter kept_score (List.filter kept_score score_data) =
    List.filter kept_score score_data.
Proof.
  apply forallb_filter_id, forallb_forall.
  intros item Hin. by apply filter_In in Hin as [_ ?].
Qed.

(** What [update_player_stats] does in terms of the kept fields alone. *)
Lemma update_player_stats_kept self user_id stats w :
  update_player_stats self user_id stats w =
    match List.filter kept_stat stats with
    | [] => (Ret false, w)
    | kept =>
        send self
          (player_stats_query
             (numbered_clauses 1 kept.*1
                ++ ["updated_at = $"
                      +:+ str_of_int (1 + Z.of_nat (length kept))])%list
             (1 + Z.of_nat (length kept)))
          (kept.*2 ++ [VTime (now w); VInt user_id])%list
          "UPDATE 0" w
    end.
Proof.
  unfold update_player_stats.
  destruct stats as [|item rest]; [reflexivity|].
  rewrite stats_fold_closed. cbn [app].
  by destruct (List.filter kept_stat (item :: rest)) as [|[key value] more].
Qed.

(** What [update_match_score] does in terms of the kept fields alone. *)
Lemma update_match_score_kept self match_id score_data w :
  update_match_score self match_id score_data w =
    match List.filter kept_score score_data with
    | [] => (Ret false, w)
    | kept =>
        send self
          (match_score_query (numbered_clauses 1 kept.*1)
             (1 + Z.of_nat (length kept)))
          (kept.*2 ++ [VStr match_id])%list
          "UPDATE 0" w
    end.
Proof.
  unfold update_match_score.
  destruct score_data as [|item rest]; [reflexivity|].
  rewrite score_fold_closed. cbn [app].
  by destruct (List.filter kept_score (item :: rest))
    as [|[key value] more].
Qed.

(** X18: when at least one player-stat field is kept, update_player_stats
    sends one UPDATE: the kept keys in call order bound to $1..$k, then
    updated_at bound to $k+1 and the row selected by $k+2, with the kept
    values in the same order followed by the current time and the user
    id.  Skipped fields use up no number. *)
Theorem update_player_stats_statement self user_id stats w :
  List.filter kept_stat stats ≠ [] →
  let kept := List.filter kept_stat stats in
  let k := Z.of_nat (length kept) in
  update_player_stats self user_id stats w =
    send self
      (player_stats_query
         (numbered_clauses 1 kept.*1
            ++ ["updated_at = $" +:+ str_of_int (1 + k)])%list
         (1 + k))
      (kept.*2 ++ [VTime (now w); VInt user_id])%list
      "UPDATE 0" w.
Proof.
  intros Hkept kept k. subst k kept. rewrite update_player_stats_kept.
  by destruct (List.filter kept_stat stats).
Qed.

(** X19: when at least one score field is on the allow-list,
    update_match_score sends one UPDATE whose SET clause binds exactly the
    allow-listed keys, in call order, to $1..$k and selects the row by
    $k+1, with the matching values followed by the match id; every column
    name written into the statement is on the allow-list. *)
Theorem update_match_score_statement self match_id score_data w :
  List.filter kept_score score_data ≠ [] →
  let kept := List.filter kept_score score_data in
  let k := Z.of_nat (length kept) in
  update_match_score self match_id score_data w =
    send self
      (match_score_query (numbered_clauses 1 kept.*1) (1 + k))
      (kept.*2 ++ [VStr match_id])%list
      "UPDATE 0" w ∧
  Forall (fun key => key ∈ allowed_fields) kept.*1.
Proof.
  intros Hkept kept k. subst k kept. split.
  - rewrite update_match_score_kept.
    by destruct (List.filter kept_score score_data).
  - apply Forall_fmap, Forall_forall. intros item Hin.
    apply list_elem_of_In, filter_In in Hin as [_ Hallowed].
    by apply is_allowed_spec.
Qed.

(** X20: fields that the loops skip have no effect at all: each update
    behaves as if it had been called with the kept fields only. *)
Theorem skipped_fields_are_ignored self user_id match_id stats score_data w :
  update_player_stats self user_id stats w =
    update_player_stats self user_id (List.filter kept_stat stats) w ∧
  update_match_score self match_id score_data w =
    update_match_score self match_id (List.filter kept_score score_data) w.
Proof.
  split.
  - rewrite (update_player_stats_kept self user_id (List.filter _ _)).
    rewrite kept_stat_idem. apply update_player_stats_kept.
  - rewrite (update_match_score_kept self match_id (List.filter _ _)).
    rewrite kept_score_idem. apply update_match_score_kept.
Qed.

End Statements.

Lemma update_player_stats_statement_witness :
  update_player_stats (manager_of recorder) 7
    [("goals", VInt 5); ("tags", VList []); ("name", VStr "x")]
    fresh_world =
  send (manager_of recorder)
    (player_stats_query
       ["goals = $1"; "name = $2"; "updated_at = $3"] 3)
    [VInt 5; VStr "x"; VTime 0; VInt 7] "UPDATE 0" fresh_world.
Proof.
  apply (update_player_stats_statement (manager_of recorder) 7
           [("goals", VInt 5); ("tags", VList []); ("name", VStr "x")]
           fresh_world).
  discriminate.
Defined.

Lemma update_match_score_statement_witness :
  update_match_score (manager_of recorder) "m1"
    [("status", VStr "ended"); ("score_a", VInt 2); ("shots_b", VInt 9)]
    fresh_world =
  send (manager_of recorder)
    (match_score_query ["score_a = $1"; "shots_b = $2"] 3)
    [VInt 2; VInt 9; VStr "m1"] "UPDATE 0" fresh_world ∧
  Forall (fun key => key ∈ allowed_fields) ["score_a"; "shots_b"].
Proof.
  apply (update_match_score_statement (manager_of recorder) "m1"
           [("status", VStr "ended"); ("score_a", VInt 2);
            ("shots_b", VInt 9)]
           fresh_world).
  discriminate.
Defined.

End StatementFacts.

(** ** The persistence layer: writes, and reads that cannot fail *)

Module WriteFacts.

Import PyStr Database PyFacts DatabaseFacts StatementFacts.

Section Writes.
Context {DB : Type}.
Implicit Types (self : DatabaseManager DB) (w : World DB).

Lemma send_uninitialized query values zero_rows w :
  send (DB:=DB) {| pool := None |} query values zero_rows w =
    (Raise (AttributeError "'NoneType' object has no attribute 'acquire'"), w).
Proof. reflexivity. Qed.

(** What [update_player_role] does in terms of the fields given. *)
Lemma update_player_role_given
    self match_id user_id team role is_captain w :
  update_player_role self match_id user_id team role is_captain w =
    match role_fields team role is_captain with
    | [] => (Ret false, w)
    | fields =>
        send self
          (player_role_query (numbered_clauses 1 fields.*1)
             (1 + Z.of_nat (length fields)))
          (fields.*2 ++ [VStr match_id; VInt user_id])%list
          "UPDATE 0" w
    end.
Proof.
  destruct team as [t|], role as [r|], is_captain as [c|]; reflexivity.
Qed.

(** Update_player_role with no field given returns false without
    touching the database; otherwise it sends one UPDATE binding the given
    fields, in the order team, role, is_captain, to $1..$k and selecting
    the row by match id $k+1 and user id $k+2, with the values in the same
    order. *)
Lemma update_player_role_statement
    self match_id user_id team role is_captain w :
  let fields := role_fields team role is_captain in
  let k := Z.of_nat (length fields) in
  update_player_role self match_id user_id team role is_captain w =
    match fields with
    | [] => (Ret false, w)
    | _ =>
        send self
          (player_role_query (numbered_clauses 1 fields.*1) (1 + k))
          (fields.*2 ++ [VStr match_id; VInt user_id])%list
          "UPDATE 0" w
    end.
Proof.
  intros fields k. subst k fields. rewrite update_player_role_given.
  by destruct (role_fields team role is_captain).
Qed.

(** X21: on a manager whose pool was never initialized, every write that
    gets as far as the pool raises AttributeError and leaves the world as
    it was: the four fixed statements, the team-name update, and the three
    field-set updates as soon as one field is kept. *)
Theorem writes_raise_without_pool
    match_id status name team user_id stats score_data
    role_team role is_captain w :
  List.filter kept_stat stats ≠ [] →
  List.filter kept_score score_data ≠ [] →
  role_fields role_team role is_captain ≠ [] →
  let self : DatabaseManager DB := {| pool := None |} in
  let raised : res bool * World DB :=
    (Raise (AttributeError "'NoneType' object has no attribute 'acquire'"),
     w) in
  delete_match self match_id w = raised ∧
  update_match_status self match_id status w = raised ∧
  update_match_host self match_id user_id w = raised ∧
  remove_player_from_match self match_id user_id w = raised ∧
  update_team_name self match_id team name w = raised ∧
  update_player_stats self user_id stats w = raised ∧
  update_match_score self match_id score_data w = raised ∧
  update_player_role self match_id user_id role_team role is_captain w =
    raised.
Proof.
  intros Hstats Hscore Hrole self raised.
  repeat (split; [reflexivity|]).
  split; [|split].
  - rewrite update_player_stats_kept.
    by destruct (List.filter kept_stat stats).
  - rewrite update_match_score_kept.
    by destruct (List.filter kept_score score_data).
  - rewrite update_player_role_given.
    by destruct (role_fields role_team role is_captain).
Qed.


(** For a team letter in either case, update_team_name writes the
    column team_a_name or team_b_name; the statement is the same for "a"
    and "A", and for "b" and "B". *)
Lemma update_team_name_column self match_id team name w :
  lower team = "a" ∨ lower team = "b" →
  update_team_name self match_id team name w =
    send self
      (if bool_decide (lower team = "a")
       then "UPDATE matches SET team_a_name = $1 WHERE match_id = $2"
       else "UPDATE matches SET team_b_name = $1 WHERE match_id = $2")
      [VStr name; VStr match_id] "UPDATE 0" w.
Proof.
  intros [Hteam|Hteam]; unfold update_team_name; rewrite Hteam; reflexivity.
Qed.

End Writes.

Lemma writes_raise_without_pool_witness :
  update_match_score uninitialized "m1" [("score_a", VInt 1)] fresh_world =
    (Raise (AttributeError "'NoneType' object has no attribute 'acquire'"),
     fresh_world).
Proof.
  apply (writes_raise_without_pool "m1" "ongoing" "Reds" "A" 7
           [("goals", VInt 1)] [("score_a", VInt 1)]
           (Some "A") None None fresh_world); discriminate.
Defined.

Lemma update_team_name_column_witness :
  update_team_name (manager_of recorder) "m1" "B" "Blues" fresh_world =
    send (manager_of recorder)
      "UPDATE matches SET team_b_name = $1 WHERE match_id = $2"
      [VStr "Blues"; VStr "m1"] "UPDATE 0" fresh_world.
Proof.
  apply (update_team_name_column (manager_of recorder) "m1" "B" "Blues"
           fresh_world).
  right. reflexivity.
Defined.

End WriteFacts.

(** ** Validation of team and role names *)

Module UtilsFacts.

Import PyStr Utils PyFacts.

Lemma listed_spec name names : listed name names = true ↔ name ∈ names.
Proof.
  unfold listed. rewrite existsb_exists. split.
  - intros [x [Hin Heq]]. apply eqs_true in Heq. subst x.
    by apply list_elem_of_In.
  - intros Hin. exists name. split; [by apply list_elem_of_In|].
    by apply eqs_true.
Qed.

Lemma validate_role_valid role v :
  validate_role role = Valid v → v ∈ VALID_ROLES.
Proof.
  unfold validate_role.
  destruct (listed (strip (upper role)) VALID_ROLES) eqn:Hin; [|discriminate].
  intros [= <-]. by apply listed_spec.
Qed.

Lemma validate_team_valid team v :
  validate_team team = Valid v → v ∈ VALID_TEAMS.
Proof.
  unfold validate_team.
  destruct (listed (strip (upper team)) VALID_TEAMS) eqn:Hin; [|discriminate].
  intros [= <-]. by apply listed_spec.
Qed.

(** X23: a role accepted by validate_role is one of ST, MF, DEF, GK,
    validating it again returns it unchanged, it has a proper full name,
    and it is a role the formation check looks for. *)
Theorem validated_role_is_canonical role v :
  validate_role role = Valid v →
  v ∈ VALID_ROLES ∧
  validate_role v = Valid v ∧
  get_role_name v ≠ "Unknown" ∧
  v ∈ GameLogic.required_positions.*1.
Proof.
  intros Hv. apply validate_role_valid in Hv as Hin. split; [exact Hin|].
  repeat (apply elem_of_cons in Hin as [-> | Hin];
          [repeat split; (reflexivity || discriminate
                          || (apply (bool_decide_unpack _); vm_compute;
                              exact I))|]).
  by apply elem_of_nil in Hin.
Qed.

Lemma validated_role_is_canonical_witness :
  "DEF" ∈ VALID_ROLES ∧
  validate_role "DEF" = Valid "DEF" ∧
  get_role_name "DEF" ≠ "Unknown" ∧
  "DEF" ∈ GameLogic.required_positions.*1.
Proof.
  apply (validated_role_is_canonical "  def " "DEF"). reflexivity.
Defined.

(** X24: a team accepted by validate_team is "A" or "B", validating it
    again returns it unchanged, and it is a team every match state knows:
    after any calls on a fresh match state its score entry exists, so
    update_score on it is never ignored. *)
Theorem validated_team_is_known team v mid ops :
  validate_team team = Valid v →
  v ∈ VALID_TEAMS ∧
  validate_team v = Valid v ∧
  MatchState.score (MatchState.run (MatchState.init mid) ops) !! v =
    Some (MatchState.points_for v ops).
Proof.
  intros Hv. apply validate_team_valid in Hv as Hin. split; [exact Hin|].
  rewrite LedgerFacts.score_run, LedgerFacts.init_score.
  repeat (apply elem_of_cons in Hin as [-> | Hin];
          [split; [reflexivity|];
           rewrite bool_decide_eq_true_2
             by (apply (bool_decide_unpack _); vm_compute; exact I);
           simpl; f_equal; lia|]).
  by apply elem_of_nil in Hin.
Qed.

Lemma validated_team_is_known_witness :
  "B" ∈ VALID_TEAMS ∧
  validate_team "B" = Valid "B" ∧
  MatchState.score
    (MatchState.run (MatchState.init "m1") [MatchState.UpdateScore "B" 2])
    !! "B" =
    Some (MatchState.points_for "B" [MatchState.UpdateScore "B" 2]).
Proof.
  apply (validated_team_is_known "b " "B" "m1"
           [MatchState.UpdateScore "B" 2]).
  reflexivity.
Defined.

Lemma upper_app a b : upper (a +:+ b) = upper a +:+ upper b.
Proof. induction a as [|c r IH]; simpl; [reflexivity|by rewrite IH]. Qed.

Lemma upper_ascii_space c : is_space (upper_ascii c) = is_space c.
Proof. destruct c as [[] [] [] [] [] [] [] []]; reflexivity. Qed.

Lemma blank_upper s : blank (upper s) = blank s.
Proof.
  induction s as [|c r IH]; simpl; [reflexivity|].
  by rewrite upper_ascii_space, IH.
Qed.

Lemma lstrip_blank ws s : blank ws = true → lstrip (ws +:+ s) = lstrip s.
Proof.
  induction ws as [|c r IH]; simpl; [reflexivity|].
  intros [-> Hr]%andb_true_iff. by apply IH.
Qed.

Lemma lstrip_all_blank ws : blank ws = true → lstrip ws = "".
Proof.
  induction ws as [|c r IH]; simpl; [reflexivity|].
  intros [-> Hr]%andb_true_iff. by apply IH.
Qed.

Lemma rstrip_blank ws : blank ws = true → rstrip ws = "".
Proof.
  induction ws as [|c r IH]; simpl; [reflexivity|].
  intros [-> Hr]%andb_true_iff. by rewrite IH.
Qed.

Lemma rstrip_app_blank s ws :
  blank ws = true → rstrip (s +:+ ws) = rstrip s.
Proof.
  intros Hws. induction s as [|c r IH]; simpl.
  - by apply rstrip_blank.
  - by rewrite IH.
Qed.

Lemma strip_app_blank s ws : blank ws = true → strip (s +:+ ws) = strip s.
Proof.
  intros Hws. unfold strip. induction s as [|c r IH]; simpl.
  - by rewrite lstrip_all_blank.
  - destruct (is_space c); [exact IH|].
    by apply (rstrip_app_blank (String c r)).
Qed.

(** Blanks around a name are removed. *)
Lemma strip_padding ws1 s ws2 :
  blank ws1 = true → blank ws2 = true →
  strip (ws1 +:+ s +:+ ws2) = strip s.
Proof.
  intros H1 H2. unfold strip. rewrite lstrip_blank by done.
  by apply strip_app_blank.
Qed.

(** X25: validation ignores letter case and blanks around the name: two
    inputs that upper-case alike, one of them padded with whitespace on
    either side, are accepted or refused alike, with the same result. *)
Theorem validation_ignores_case_and_padding ws1 ws2 name name' :
  blank ws1 = true → blank ws2 = true → upper name = upper name' →
  validate_role (ws1 +:+ name +:+ ws2) = validate_role name' ∧
  validate_team (ws1 +:+ name +:+ ws2) = validate_team name'.
Proof.
  intros H1 H2 Hcase. unfold validate_role, validate_team.
  rewrite !upper_app, Hcase.
  rewrite strip_padding by (by rewrite blank_upper). done.
Qed.

Lemma validation_ignores_case_and_padding_witness :
  validate_role ("  " +:+ "gk" +:+ " ") = validate_role "GK" ∧
  validate_team ("  " +:+ "gk" +:+ " ") = validate_team "GK".
Proof.
  apply (validation_ignores_case_and_padding "  " " " "gk" "GK");
    reflexivity.
Defined.

End UtilsFacts.

(** ** Start-up: the retry loop of initialize *)

Module StartupFacts.

Import PyStr Database Startup PyFacts.




Section Boot.
Context {DB : Type}.
Implicit Types (b : Boot DB) (connect : nat → outcome (Pool DB)).





(** X27: initialize with no attempt allowed (max_retries zero or negative)
    returns normally without connecting: nothing is logged, nothing is
    slept, and the pool is still unset, so a read without guard raises
    afterwards. *)
Theorem no_attempt_reports_success connect max_retries b :
  max_retries ≤ 0 → pool (manager b) = None →
  initialize connect max_retries b = (Done tt, b) ∧
  get_active_matches (manager b) (world b) =
    (Raise (AttributeError "'NoneType' object has no attribute 'acquire'"),
     world b).
Proof.
  intros Hneg Hpool. split.
  - unfold initialize. by rewrite Z2Nat.nonpos.
  - unfold get_active_matches, bind, pool_acquire. by rewrite Hpool.
Qed.

(** The state after [count] attempts refused at the connection, from
    attempt [first], none of them the last. *)
Lemma refused_attempts connect max_retries count : ∀ first b,
  (∀ j, (first ≤ j < first + count)%nat → ∃ e, connect j = Failed e) →
  Z.of_nat (first + count) < max_retries →
  ∃ b',
    manager b' = manager b ∧
    store (world b') = store (world b) ∧
    slept b' =
      (slept b ++ map (fun i => 2 ^ Z.of_nat i) (seq first count))%list ∧
    length (errors_logged (world b')) =
      (length (errors_logged (world b)) + count)%nat ∧
    ∀ rest,
      retry_loop connect max_retries (seq first count ++ rest)%list b =
        retry_loop connect max_retries rest b'.
Proof.
  induction count as [|count IH]; intros first b Hrefused Hmax.
  - exists b. simpl. rewrite app_nil_r. repeat split; try done; lia.
  - destruct (Hrefused first ltac:(lia)) as [e He].
    destruct (IH (S first)
                (sleep (log_info
                   (log_error b
                      ("Failed to initialize database (attempt "
                         +:+ str_of_int (Z.of_nat first + 1) +:+ "/"
                         +:+ str_of_int max_retries +:+ "): "
                         +:+ failure_text e))
                   ("Retrying in " +:+ str_of_int (2 ^ Z.of_nat first)
                      +:+ " seconds..."))
                   (2 ^ Z.of_nat first)))
      as (b' & Hmgr & Hstore & Hslept & Hlen & Hloop).
    { intros j Hj. apply Hrefused. lia. }
    { lia. }
    exists b'. split; [exact Hmgr|]. split; [exact Hstore|].
    split; [|split].
    + rewrite Hslept. cbn [sleep slept log_info log_error seq map].
      by rewrite <- app_assoc.
    + rewrite Hlen. cbn [sleep world log_info log_error logged errors_logged].
      rewrite length_app. simpl. lia.
    + intros rest. cbn [seq app retry_loop]. unfold attempt_body.
      rewrite He.
      destruct (Z.ltb_spec (Z.of_nat first) (max_retries - 1)); [|lia].
      apply Hloop.
Qed.

Lemma attempts_split (k n : nat) :
  (k < n)%nat → seq 0 n = (seq 0 k ++ k :: seq (S k) (n - S k))%list.
Proof.
  intros Hk. replace n with (k + S (n - S k))%nat at 1 by lia.
  by rewrite seq_app.
Qed.

(** X28: when the first k connection attempts are refused and attempt k
    (k below max_retries) gets a pool on which every schema statement
    succeeds, initialize returns normally with that pool stored, the
    database as the schema statements left it, 1 + 2 + ... + 2^(k-1)
    seconds slept, and one error line per refused attempt. *)
Theorem first_success_ends_the_loop connect max_retries k p conn d b :
  (∀ j, (j < k)%nat → ∃ e, connect j = Failed e) →
  connect k = Done p → acquire p = Ret conn →
  execute_all conn schema_statements (store (world b)) = (Ret tt, d) →
  Z.of_nat k < max_retries →
  ∃ b',
    initialize connect max_retries b = (Done tt, b') ∧
    pool (manager b') = Some p ∧
    store (world b') = d ∧
    slept b' = (slept b ++ backoff k)%list ∧
    length (errors_logged (world b')) =
      (length (errors_logged (world b)) + k)%nat.
Proof.
  intros Hrefused Hk Hacq Hschema Hmax.
  destruct (refused_attempts connect max_retries k 0%nat b)
    as (bk & Hmgr & Hstore & Hslept & Hlen & Hloop).
  { intros j Hj. apply Hrefused. lia. }
  { simpl. lia. }
  unfold initialize.
  rewrite (attempts_split k (Z.to_nat max_retries)) by lia.
  rewrite Hloop. cbn [retry_loop]. unfold attempt_body. rewrite Hk.
  unfold create_tables. cbn [set_pool log_info manager pool world].
  rewrite Hacq, Hstore, Hschema.
  eexists. split; [reflexivity|].
  cbn [log_info set_store set_pool manager pool world store slept
       errors_logged].
  repeat split; [exact Hslept|exact Hlen].
Qed.

(** X29: when every one of the max_retries attempts is refused at the
    connection, initialize raises the error of the last attempt, leaves the
    manager as it was, has slept 1 + 2 + ... + 2^(max_retries-2) seconds
    and has logged one error line per attempt plus the closing one. *)
Theorem exhausted_attempts_raise_last_error connect (n : nat) e b :
  (∀ j, (j < n)%nat → ∃ e', connect j = Failed e') →
  connect n = Failed e →
  ∃ b',
    initialize connect (Z.of_nat (S n)) b = (Failed e, b') ∧
    manager b' = manager b ∧
    store (world b') = store (world b) ∧
    slept b' = (slept b ++ backoff n)%list ∧
    length (errors_logged (world b')) =
      (length (errors_logged (world b)) + n + 2)%nat.
Proof.
  intros Hrefused Hlast.
  destruct (refused_attempts connect (Z.of_nat (S n)) n 0%nat b)
    as (bn & Hmgr & Hstore & Hslept & Hlen & Hloop).
  { intros j Hj. apply Hrefused. lia. }
  { simpl. lia. }
  unfold initialize. rewrite Nat2Z.id.
  rewrite (attempts_split n (S n)) by lia.
  rewrite Hloop. cbn [retry_loop]. unfold attempt_body. rewrite Hlast.
  destruct (Z.ltb_spec (Z.of_nat n) (Z.of_nat (S n) - 1)); [lia|].
  eexists. split; [reflexivity|].
  cbn [log_error manager world logged store slept errors_logged].
  rewrite !length_app. simpl.
  repeat split; [exact Hmgr|exact Hstore|exact Hslept|lia].
Qed.

(** X30: initialize can raise and still leave a pool behind.  When the last
    attempt obtains a pool but a schema statement fails on it, initialize
    raises that error while the manager keeps the pool, so the guard of
    get_player and get_match no longer stops them. *)
Theorem failed_start_can_leave_a_pool connect (n : nat) p conn e d b :
  (∀ j, (j < n)%nat → ∃ e', connect j = Failed e') →
  connect n = Done p → acquire p = Ret conn →
  execute_all conn schema_statements (store (world b)) = (Raise e, d) →
  ∃ b',
    initialize connect (Z.of_nat (S n)) b = (Failed (Driver e), b') ∧
    pool (manager b') = Some p.
Proof.
  intros Hrefused Hlast Hacq Hschema.
  destruct (refused_attempts connect (Z.of_nat (S n)) n 0%nat b)
    as (bn & Hmgr & Hstore & Hslept & Hlen & Hloop).
  { intros j Hj. apply Hrefused. lia. }
  { simpl. lia. }
  unfold initialize. rewrite Nat2Z.id.
  rewrite (attempts_split n (S n)) by lia.
  rewrite Hloop. cbn [retry_loop]. unfold attempt_body. rewrite Hlast.
  unfold create_tables. cbn [set_pool log_info manager pool world].
  rewrite Hacq, Hstore, Hschema.
  destruct (Z.ltb_spec (Z.of_nat n) (Z.of_nat (S n) - 1)); [lia|].
  eexists. split; reflexivity.
Qed.

End Boot.

Lemma no_attempt_reports_success_witness :
  initialize (up_after 0 recorder) 0 cold_boot = (Done tt, cold_boot) ∧
  get_active_matches (manager cold_boot) (world cold_boot) =
    (Raise (AttributeError "'NoneType' object has no attribute 'acquire'"),
     world cold_boot).
Proof.
  apply (no_attempt_reports_success (up_after 0 recorder) 0 cold_boot);
    [lia|reflexivity].
Defined.

Lemma first_success_ends_the_loop_witness :
  ∃ b',
    initialize (up_after 2 recorder) 3 cold_boot = (Done tt, b') ∧
    pool (manager b') = Some {| acquire := Ret recorder |} ∧
    store (world b') = map (fun query => (query, [])) schema_statements ∧
    slept b' = ([] ++ backoff 2)%list ∧
    length (errors_logged (world b')) = (0 + 2)%nat.
Proof.
  apply (first_success_ends_the_loop (up_after 2 recorder) 3 2
           {| acquire := Ret recorder |} recorder
           (map (fun query => (query, [])) schema_statements) cold_boot).
  - intros j Hj. exists (OSError "connection refused").
    unfold up_after. by rewrite (proj2 (Nat.ltb_lt j 2) Hj).
  - reflexivity.
  - reflexivity.
  - reflexivity.
  - lia.
Defined.

Lemma exhausted_attempts_raise_last_error_witness :
  ∃ b',
    initialize (up_after 5 recorder) (Z.of_nat 3) cold_boot =
      (Failed (OSError "connection refused"), b') ∧
    manager b' = manager cold_boot ∧
    store (world b') = store (world cold_boot) ∧
    slept b' = (slept cold_boot ++ backoff 2)%list ∧
    length (errors_logged (world b')) =
      (length (errors_logged (world cold_boot)) + 2 + 2)%nat.
Proof.
  apply (exhausted_attempts_raise_last_error (up_after 5 recorder) 2
           (OSError "connection refused") cold_boot).
  - intros j Hj. exists (OSError "connection refused").
    unfold up_after. by rewrite (proj2 (Nat.ltb_lt j 5)) by lia.
  - reflexivity.
Defined.

Lemma failed_start_can_leave_a_pool_witness :
  ∃ b',
    initialize (up_after 0 broken) (Z.of_nat 1) cold_boot =
      (Failed (Driver (PostgresError "connection is closed")), b') ∧
    pool (manager b') = Some {| acquire := Ret broken |}.
Proof.
  apply (failed_start_can_leave_a_pool (up_after 0 broken) 0
           {| acquire := Ret broken |} broken
           (PostgresError "connection is closed") [] cold_boot).
  - intros j Hj. lia.
  - reflexivity.
  - reflexivity.
  - reflexivity.
Defined.

End StartupFacts.
